(** * The OpenCode terminal wrappers: [terminal_pty.py] and [terminal_win.py]

    A shallow embedding of the two PTY wrappers and of their in-band resize
    protocol [ESC ] RESIZE ; cols ; rows BEL].

    - [Py]   : the Python values and built-ins the wrappers rely on
               (slices, [bytes.find], [bytes.decode], [str.split], [int],
               [struct.pack]).
    - [Unix] : [terminal_pty.py] ([set_size], [handle_resize_escape], the
               command handed to [os.execvp]).
    - [Win]  : [terminal_win.py] ([WindowsPTY.start], [handle_input],
               [handle_resize]).
    - [UnixMain]  : the child and parent branches of [main] in
               [terminal_pty.py], with the relay loop and its [finally].
    - [WinOutput] : [read_output] and [filter_focus_events] of
               [terminal_win.py]. *)

From Stdlib Require Import String Ascii ZArith NArith List Bool Lia.
From Stdlib.Strings Require Import Byte.
From Equations Require Import Equations.
From Equations.Prop Require Import Logic.
Import ListNotations.
Local Open Scope Z_scope.

(* ===================================================================== *)
(** * Python values and built-ins                                         *)
(* ===================================================================== *)

Module Py.

(** [bytes] objects are sequences of bytes, [str] objects sequences of
    Unicode code points. *)
Definition bytes := list byte.
Definition str := list N.

Definition len {A} (l : list A) : Z := Z.of_nat (length l).

(** Characters of a literal, as bytes and as code points. *)
Definition bytes_of (s : string) : bytes := list_byte_of_string s.
Definition str_of (s : string) : str :=
  map Byte.to_N (list_byte_of_string s).

Definition ESC_byte : byte := x1b.
Definition BEL_byte : byte := x07.
Definition ESC : N := 27%N.
Definition BEL : N := 7%N.
Definition SEMI : N := 59%N.

(** ** Sequence equality and prefixes *)

Fixpoint list_eqb {A} (eqb : A -> A -> bool) (l1 l2 : list A) : bool :=
  match l1, l2 with
  | [], [] => true
  | x :: t1, y :: t2 => eqb x y && list_eqb eqb t1 t2
  | _, _ => false
  end.

Definition bytes_eqb : bytes -> bytes -> bool := list_eqb Byte.eqb.
Definition str_eqb : str -> str -> bool := list_eqb N.eqb.

(** [s.startswith(p)] *)
Definition startswith (s p : str) : bool :=
  str_eqb (firstn (length p) s) p.

(** ** Slices [l[start:stop]]

    Indices are adjusted as CPython does: a negative index counts from the
    end, and both ends are clipped to [0 .. len l]. *)
Definition adjust (n k : Z) : Z :=
  if k <? 0 then Z.max 0 (k + n) else Z.min k n.

Definition slice {A} (l : list A) (start stop : Z) : list A :=
  let lo := adjust (len l) start in
  let hi := adjust (len l) stop in
  firstn (Z.to_nat (hi - lo)) (skipn (Z.to_nat lo) l).

(** ** [data.find(x, start)] for a one-byte needle: the lowest index
    [>= start] holding [x], or [-1]. *)
Fixpoint index_from (x : byte) (l : bytes) (j : Z) : Z :=
  match l with
  | [] => -1
  | y :: t => if Byte.eqb y x then j else index_from x t (j + 1)
  end.

Definition find (data : bytes) (x : byte) (start : Z) : Z :=
  let lo := adjust (len data) start in
  index_from x (skipn (Z.to_nat lo) data) lo.

(** ** [bytes.decode('utf-8')] (strict): [None] stands for
    [UnicodeDecodeError], a subclass of [ValueError]. *)
Definition continuation (x : byte) : option N :=
  let n := Byte.to_N x in
  if ((128 <=? n) && (n <=? 191))%N then Some (n - 128)%N else None.

Fixpoint decode_utf8 (l : bytes) : option str :=
  match l with
  | [] => Some []
  | b0 :: t =>
    let n0 := Byte.to_N b0 in
    if (n0 <? 128)%N then option_map (cons n0) (decode_utf8 t)
    else if ((194 <=? n0) && (n0 <=? 223))%N then
      match t with
      | b1 :: t1 =>
        match continuation b1 with
        | Some c1 =>
          option_map (cons ((n0 - 192) * 64 + c1)%N) (decode_utf8 t1)
        | None => None
        end
      | _ => None
      end
    else if ((224 <=? n0) && (n0 <=? 239))%N then
      match t with
      | b1 :: b2 :: t2 =>
        match continuation b1, continuation b2 with
        | Some c1, Some c2 =>
          let cp := ((n0 - 224) * 4096 + c1 * 64 + c2)%N in
          if ((cp <? 2048) || ((55296 <=? cp) && (cp <=? 57343)))%N
          then None
          else option_map (cons cp) (decode_utf8 t2)
        | _, _ => None
        end
      | _ => None
      end
    else if ((240 <=? n0) && (n0 <=? 244))%N then
      match t with
      | b1 :: b2 :: b3 :: t3 =>
        match continuation b1, continuation b2, continuation b3 with
        | Some c1, Some c2, Some c3 =>
          let cp := ((n0 - 240) * 262144 + c1 * 4096 + c2 * 64 + c3)%N in
          if ((cp <? 65536) || (1114111 <? cp))%N
          then None
          else option_map (cons cp) (decode_utf8 t3)
        | _, _, _ => None
        end
      | _ => None
      end
    else None
  end.

(** ** [s.split(sep)] for a one-character separator *)
Fixpoint split (sep : N) (s : str) : list str :=
  match s with
  | [] => [[]]
  | c :: t =>
    if (c =? sep)%N then [] :: split sep t
    else match split sep t with
         | [] => [[c]]
         | f :: fs => (c :: f) :: fs
         end
  end.

(** ** The environment the wrappers run in

    What the source takes from outside the repository and that no claim
    fixes: CPython's Unicode tables and digit limit, and whether the
    operating system (or pywinpty) accepts a call. *)
Record Env := {
  (** [Py_UNICODE_ISSPACE], consulted for code points [>= 127] *)
  unicode_isspace : N -> bool;
  (** [Py_UNICODE_TODECIMAL], consulted for code points [>= 127] *)
  unicode_todecimal : N -> option N;
  (** [sys.get_int_max_str_digits()]; [0] switches the limit off *)
  int_max_str_digits : N;
  (** does [fcntl.ioctl(fd, TIOCSWINSZ, _)] succeed on this descriptor? *)
  ioctl_ok : Z -> bool;
  (** does [os.kill(pid, _)] succeed for this pid? *)
  kill_ok : Z -> bool;
  (** does pywinpty's [setwinsize(rows, cols)] succeed? *)
  setwinsize_ok : Z -> Z -> bool
}.

(** ** [int(s)] for a [str] argument, base 10: [None] stands for
    [ValueError].

    CPython first rewrites Unicode spaces and decimal digits to ASCII
    ([_PyUnicode_TransformDecimalAndSpaceToASCII]), then parses
    ([PyLong_FromString]): optional blanks, an optional sign, digits with
    single underscores between them, optional blanks. *)
Definition to_ascii_char (E : Env) (c : N) : option N :=
  if (c <? 127)%N then Some c
  else if unicode_isspace E c then Some 32%N
  else match unicode_todecimal E c with
       | Some d => if (d <? 10)%N then Some (48 + d)%N else None
       | None => None
       end.

Fixpoint to_ascii (E : Env) (s : str) : option (list N) :=
  match s with
  | [] => Some []
  | c :: t =>
    match to_ascii_char E c, to_ascii E t with
    | Some a, Some r => Some (a :: r)
    | _, _ => None
    end
  end.

Definition Py_ISSPACE (c : N) : bool :=
  (((9 <=? c) && (c <=? 13)) || (c =? 32))%N.

Definition digit_value (c : N) : option Z :=
  if ((48 <=? c) && (c <=? 57))%N then Some (Z.of_N (c - 48)) else None.

Fixpoint skip_spaces (s : list N) : list N :=
  match s with
  | c :: t => if Py_ISSPACE c then skip_spaces t else s
  | [] => []
  end.

(** The digit loop of [PyLong_FromString]: the value read, the number of
    digits and the unread rest; [None] on a doubled or trailing
    underscore. *)
Fixpoint scan_digits (s : list N) (prev_underscore : bool)
         (acc : Z) (digits : N) : option (Z * N * list N) :=
  match s with
  | [] => if prev_underscore then None else Some (acc, digits, [])
  | c :: t =>
    match digit_value c with
    | Some d => scan_digits t false (10 * acc + d) (digits + 1)%N
    | None =>
      if (c =? 95)%N
      then (if prev_underscore then None else scan_digits t true acc digits)
      else (if prev_underscore then None else Some (acc, digits, s))
    end
  end.

Definition too_many_digits (E : Env) (digits : N) : bool :=
  ((640 <? digits) && (0 <? int_max_str_digits E)
   && (int_max_str_digits E <? digits))%N.

Definition PyLong_FromString (E : Env) (s : list N) : option Z :=
  let s1 := skip_spaces s in
  let '(sign, s2) :=
    match s1 with
    | c :: t => if (c =? 43)%N then (1, t)
                else if (c =? 45)%N then (-1, t) else (1, s1)
    | [] => (1, s1)
    end in
  match s2 with
  | c :: _ => if (c =? 95)%N then None else
    match scan_digits s2 false 0 0%N with
    | Some (v, digits, rest) =>
      if (digits =? 0)%N then None
      else if too_many_digits E digits then None
      else match skip_spaces rest with
           | [] => Some (sign * v)
           | _ :: _ => None
           end
    | None => None
    end
  | [] => None
  end.

Definition int (E : Env) (s : str) : option Z :=
  if forallb (fun c => (c <? 128)%N) s
  then (if existsb (N.eqb 0) s then None else PyLong_FromString E s)
  else match to_ascii E s with
       | Some a => if existsb (N.eqb 0) a then None else PyLong_FromString E a
       | None => None
       end.

(** ** [struct.pack('HHHH', a, b, c, d)]: four native unsigned shorts;
    [None] stands for [struct.error], raised when a value does not fit. *)
Definition fits_H (x : Z) : bool := (0 <=? x) && (x <=? 65535).

Definition pack_HHHH (x1 x2 x3 x4 : Z) : option (Z * Z * Z * Z) :=
  if fits_H x1 && fits_H x2 && fits_H x3 && fits_H x4
  then Some (x1, x2, x3, x4) else None.

End Py.

(* ===================================================================== *)
(** * [terminal_pty.py]: the Unix wrapper                                 *)
(* ===================================================================== *)

Module Unix.
Import Py.

(** ** Effects

    The exceptions the wrapper can meet, the observable events, and the
    module-level state ([child_pid]) together with the log of events. *)
Inductive exn := ValueError | OSError | struct_error.

Inductive signal := SIGWINCH | SIGTERM.

Inductive event :=
| TIOCSWINSZ (fd rows cols : Z)        (* an accepted window-size ioctl *)
| Kill (pid : Z) (sig : signal)        (* an accepted [os.kill(pid, sig)] *)
| Stderr (e : exn).                    (* a "Resize error: ..." line *)

Record World := {
  child_pid : option Z;                (* the global; [None] until the fork *)
  log : list event                     (* oldest event first *)
}.

Definition emit (ev : event) (w : World) : World :=
  {| child_pid := child_pid w; log := log w ++ [ev] |}.

(** A computation either returns a value or raises, in both cases with the
    world it leaves behind. *)
Inductive outcome (A : Type) :=
| Ok (a : A) (w : World)
| Raise (e : exn) (w : World).
Arguments Ok {A} a w.
Arguments Raise {A} e w.

Definition M (A : Type) := World -> outcome A.

Definition ret {A} (a : A) : M A := fun w => Ok a w.
Definition raise {A} (e : exn) : M A := fun w => Raise e w.
Definition bind {A B} (m : M A) (k : A -> M B) : M B :=
  fun w => match m w with
           | Ok a w' => k a w'
           | Raise e w' => Raise e w'
           end.

Notation "x <- m ;; k" := (bind m (fun x => k))
  (at level 61, m at next level, right associativity).
Notation "m ;;; k" := (bind m (fun _ => k))
  (at level 61, right associativity).

(** [try: body  except (ValueError, OSError) as e: handler e] *)
Definition try_except {A} (body : M A) (caught : exn -> bool)
           (handler : exn -> M A) : M A :=
  fun w => match body w with
           | Ok a w' => Ok a w'
           | Raise e w' => if caught e then handler e w' else Raise e w'
           end.

Definition or_raise {A} (e : exn) (o : option A) : M A :=
  match o with Some a => ret a | None => raise e end.

(** ** System calls *)

(** [fcntl.ioctl(fd, termios.TIOCSWINSZ, size)] *)
Definition ioctl_TIOCSWINSZ (E : Env) (fd : Z) (size : Z * Z * Z * Z)
  : M unit :=
  fun w =>
    if ioctl_ok E fd
    then let '(rows, cols, _, _) := size in
         Ok tt (emit (TIOCSWINSZ fd rows cols) w)
    else Raise OSError w.

(** [os.kill(pid, sig)] *)
Definition os_kill (E : Env) (pid : Z) (sig : signal) : M unit :=
  fun w => if kill_ok E pid then Ok tt (emit (Kill pid sig) w)
           else Raise OSError w.

(** [sys.stderr.write(f"Resize error: {e}\n")] *)
Definition stderr_write (e : exn) : M unit :=
  fun w => Ok tt (emit (Stderr e) w).

Definition get_child_pid : M (option Z) := fun w => Ok (child_pid w) w.

(** ** [set_size] (lines 21-24) *)
Definition set_size (E : Env) (fd cols rows : Z) : M unit :=
  size <- or_raise struct_error (pack_HHHH rows cols 0 0) ;;
  ioctl_TIOCSWINSZ E fd size.

(** ** [handle_resize_escape] (lines 27-55) *)

(** The literal the scanner compares with: [b'\x1b]RESIZE;']. *)
Definition RESIZE : bytes := ESC_byte :: bytes_of "]RESIZE;".

(** [cols, rows = params.split(';')] *)
Definition unpack2 (fields : list str) : M (str * str) :=
  match fields with
  | [cols; rows] => ret (cols, rows)
  | _ => raise ValueError
  end.

(** [if child_pid:] *)
Definition truthy (pid : option Z) : bool :=
  match pid with Some p => negb (p =? 0) | None => false end.

(** The body of the [try] statement (lines 43-48), for the parameter bytes
    [data[i+8:end]]. *)
Definition resize_body (E : Env) (fd : Z) (raw : bytes) : M unit :=
  params <- or_raise ValueError (decode_utf8 raw) ;;
  cr <- unpack2 (split SEMI params) ;;
  cols <- or_raise ValueError (int E (fst cr)) ;;
  rows <- or_raise ValueError (int E (snd cr)) ;;
  set_size E fd cols rows ;;;
  pid <- get_child_pid ;;
  if truthy pid
  then os_kill E (match pid with Some p => p | None => 0 end) SIGWINCH
  else ret tt.

(** The whole [try ... except (ValueError, OSError)] statement
    (lines 42-50). *)
Definition resize_try (E : Env) (fd : Z) (raw : bytes) : M unit :=
  try_except (resize_body E fd raw)
             (fun e => match e with
                       | ValueError | OSError => true
                       | struct_error => false
                       end)
             stderr_write.

(** The [while i < len(data)] loop, from index [i] with [result] built so
    far.  [i] grows at every turn, which bounds the number of turns. *)
Equations? scan (E : Env) (data : bytes) (fd : Z) (i : Z) (result : bytes)
           (w : World) : outcome bytes
  by wf (Z.to_nat (len data - i)) lt :=
  scan E data fd i result w with Z_lt_dec i (len data) := {
    | right _ := Ok result w
    | left _ with bytes_eqb (slice data i (i + 8)) RESIZE := {
      | false := scan E data fd (i + 1) (result ++ slice data i (i + 1)) w
      | true with inspect (find data BEL_byte i) := {
        | exist _ end_ _ with Z.eq_dec end_ (-1) := {
          | left _ :=
              scan E data fd (i + 1) (result ++ slice data i (i + 1)) w
          | right _ with resize_try E fd (slice data (i + 8) end_) w := {
            | Ok _ w' := scan E data fd (end_ + 1) result w'
            | Raise e w' := Raise e w' } } } } }.
Proof.
  all: try lia.
  (* [i = end_ + 1]: a hit of [find] lies at or after [i] *)
  assert (Hidx : forall (l : bytes) (j : Z),
             index_from BEL_byte l j <> -1 -> j <= index_from BEL_byte l j).
  { intros l0. induction l0 as [|y t IH]; intros j; simpl; [congruence|].
    destruct (Byte.eqb y BEL_byte); [lia|].
    intros Hne. specialize (IH (j + 1) Hne). lia. }
  assert (Hlo : i <= adjust (len data) i).
  { unfold adjust. destruct (i <? 0) eqn:Hi; [apply Z.ltb_lt in Hi|]; lia. }
  match goal with
  | H : find data BEL_byte i <> -1 |- _ =>
    unfold find in *; specialize (Hidx _ _ H)
  end.
  lia.
Qed.

Definition handle_resize_escape (E : Env) (data : bytes) (fd : Z)
  : M bytes :=
  fun w => scan E data fd 0 [] w.

(** The window size a descriptor ends up with: the [(cols, rows)] of the
    last accepted ioctl on it. *)
Fixpoint terminal_size (fd : Z) (l : list event) (size : option (Z * Z))
  : option (Z * Z) :=
  match l with
  | [] => size
  | TIOCSWINSZ fd' rows cols :: t =>
    terminal_size fd t (if fd' =? fd then Some (cols, rows) else size)
  | _ :: t => terminal_size fd t size
  end.

(** ** [main] (lines 58-81), up to what the forked child executes *)
Inductive started :=
| Usage                                        (* [sys.exit(1)] *)
| Crash                                        (* an uncaught [ValueError] *)
| Execvp (file : string) (args : list string)  (* [os.execvp(cmd[0], cmd)] *)
.

Definition main_child (E : Env) (sys_argv : list string) : started :=
  if len sys_argv <? 4 then Usage
  else
    match int E (str_of (nth 1 sys_argv EmptyString)),
          int E (str_of (nth 2 sys_argv EmptyString)) with
    | Some _, Some _ =>
      let cmd := skipn 3 sys_argv in
      Execvp (nth 0 cmd EmptyString) cmd
    | _, _ => Crash
    end.

End Unix.

(* ===================================================================== *)
(** * [terminal_win.py]: the Windows wrapper                              *)
(* ===================================================================== *)

Module Win.
Import Py.

(** Every exception is caught by [except Exception]; the kind only shows in
    the line written to stderr. *)
Inductive exn := ValueError | AttributeError | WinptyError.

(** [self.cmd] is a list ([sys.argv[3:]]) or already a string. *)
Inductive command :=
| CmdList (args : list string)
| CmdStr (line : string).

(** The pywinpty process object: the command line it was spawned with, its
    window size [(rows, cols)], its liveness, and what was written to it. *)
Record PtyProcess := {
  argv : string;
  dimensions : Z * Z;
  isalive : bool;
  written : list str
}.

(** A [WindowsPTY] object, together with the lines sent to [sys.stderr]. *)
Record WindowsPTY := {
  cols : Z;
  rows : Z;
  cmd : command;
  proc : option PtyProcess;
  running : bool;
  stderr : list exn
}.

(** [__init__] (lines 20-25) *)
Definition init (cols rows : Z) (cmd : command) : WindowsPTY :=
  {| cols := cols; rows := rows; cmd := cmd;
     proc := None; running := true; stderr := [] |}.

Definition set_proc (self : WindowsPTY) (p : option PtyProcess)
  : WindowsPTY :=
  {| cols := cols self; rows := rows self; cmd := cmd self;
     proc := p; running := running self; stderr := stderr self |}.

Definition set_running (self : WindowsPTY) (r : bool) : WindowsPTY :=
  {| cols := cols self; rows := rows self; cmd := cmd self;
     proc := proc self; running := r; stderr := stderr self |}.

(** [sys.stderr.write(f"Resize error: {e}\n")] *)
Definition stderr_write (e : exn) (self : WindowsPTY) : WindowsPTY :=
  {| cols := cols self; rows := rows self; cmd := cmd self;
     proc := proc self; running := running self;
     stderr := stderr self ++ [e] |}.

(** [self.proc.write(s)]; on a missing or dead process the call raises and
    the caller's [except Exception] swallows it. *)
Definition proc_write (s : str) (self : WindowsPTY) : WindowsPTY :=
  match proc self with
  | Some p =>
    if isalive p
    then set_proc self (Some {| argv := argv p; dimensions := dimensions p;
                                isalive := isalive p;
                                written := written p ++ [s] |})
    else self
  | None => self
  end.

(** [self.proc.setwinsize(rows, cols)]: [inl] is the exception raised. *)
Definition setwinsize (E : Env) (r c : Z) (p : PtyProcess)
  : exn + PtyProcess :=
  if setwinsize_ok E r c
  then inr {| argv := argv p; dimensions := (r, c);
              isalive := isalive p; written := written p |}
  else inl WinptyError.

(** The spawn of [start] (lines 29-38): the command is joined with spaces
    when it is a list. *)
Definition cmd_str (c : command) : string :=
  match c with
  | CmdList args => String.concat " " args
  | CmdStr line => line
  end.

Definition spawn (line : string) (dims : Z * Z) : PtyProcess :=
  {| argv := line; dimensions := dims; isalive := true; written := [] |}.

Definition start_spawn (self : WindowsPTY) : WindowsPTY :=
  set_proc self (Some (spawn (cmd_str (cmd self)) (rows self, cols self))).

(** ** [handle_resize] (lines 126-134) *)

(** The literal ['\x1b]RESIZE;'] *)
Definition RESIZE : str := ESC :: str_of "]RESIZE;".

(** The [try] body: [inl] is the exception it raises. *)
Definition resize_body (E : Env) (data : str) (self : WindowsPTY)
  : exn + WindowsPTY :=
  let params := slice data 8 (-1) in
  match split SEMI params with
  | [cols_s; rows_s] =>
    match proc self with
    | None => inl AttributeError
    | Some p =>
      match int E rows_s with
      | None => inl ValueError
      | Some r =>
        match int E cols_s with
        | None => inl ValueError
        | Some c =>
          match setwinsize E r c p with
          | inr p' => inr (set_proc self (Some p'))
          | inl e => inl e
          end
        end
      end
    end
  | _ => inl ValueError
  end.

Definition handle_resize (E : Env) (data : str) (self : WindowsPTY)
  : WindowsPTY :=
  match resize_body E data self with
  | inr self' => self'
  | inl e => stderr_write e self
  end.

(** ** [handle_input] (lines 77-124)

    The function reads standard input one character at a time, so it is
    modelled by where control stands between two reads: at the head of the
    outer loop, at the head of the inner loop with its [buffer], or after
    the [finally] clause. *)
Inductive control :=
| Outer
| Inner (buffer : str)
| Finished.

(** Leaving the inner loop: [if buffer: self.proc.write(buffer)], then back
    to the head of the outer loop. *)
Definition leave_inner (buffer : str) (self : WindowsPTY)
  : control * WindowsPTY :=
  (Outer, match buffer with
          | [] => self
          | _ :: _ => proc_write buffer self
          end).

(** One turn of the outer loop on the character [data] (lines 83-115). *)
Definition outer_turn (data : N) (self : WindowsPTY)
  : control * WindowsPTY :=
  if (data =? ESC)%N then (Inner [data], self)
  else (Outer, proc_write [data] self).

(** One turn of the inner loop on the character [c] (lines 93-108). *)
Definition inner_turn (E : Env) (buffer : str) (c : N) (self : WindowsPTY)
  : control * WindowsPTY :=
  let buffer := buffer ++ [c] in
  if startswith buffer RESIZE then
    if (c =? BEL)%N
    then leave_inner [] (handle_resize E buffer self)
    else (Inner buffer, self)
  else if 50 <? len buffer then leave_inner buffer self
  else if negb (startswith RESIZE (slice buffer 0 (len RESIZE)))
       then leave_inner buffer self
  else (Inner buffer, self).

(** The loop condition [self.running and self.proc.isalive()] *)
Definition loop_condition (self : WindowsPTY) : bool :=
  running self &&
  match proc self with Some p => isalive p | None => false end.

(** [finally: self.running = False] *)
Definition finish (self : WindowsPTY) : WindowsPTY := set_running self false.

(** Reading one character [ch]. *)
Definition step (E : Env) (s : control * WindowsPTY) (ch : N)
  : control * WindowsPTY :=
  match s with
  | (Outer, self) =>
    if loop_condition self then outer_turn ch self
    else (Finished, finish self)
  | (Inner buffer, self) => inner_turn E buffer ch self
  | (Finished, self) => (Finished, self)
  end.

(** Reading end of input ([sys.stdin.read(1)] returns the empty string). *)
Definition at_eof (s : control * WindowsPTY) : WindowsPTY :=
  match s with
  | (Outer, self) => finish self
  | (Inner buffer, self) => finish (snd (leave_inner buffer self))
  | (Finished, self) => self
  end.

(** The state reached after the characters [stdin] have been read. *)
Definition feed (E : Env) (s : control * WindowsPTY) (stdin : str)
  : control * WindowsPTY :=
  fold_left (step E) stdin s.

(** [handle_input] on an input that ends after [stdin]. *)
Definition handle_input (E : Env) (self : WindowsPTY) (stdin : str)
  : WindowsPTY :=
  at_eof (feed E (Outer, self) stdin).

(** [start] (lines 27-45), the reader thread apart: spawn, then handle the
    input. *)
Definition start (E : Env) (self : WindowsPTY) (stdin : str) : WindowsPTY :=
  handle_input E (start_spawn self) stdin.

(** Everything written to the child, in order. *)
Definition payload (self : WindowsPTY) : str :=
  match proc self with
  | Some p => concat (written p)
  | None => []
  end.

(** The characters held back in the pending buffer. *)
Definition pending (s : control * WindowsPTY) : str :=
  match fst s with
  | Inner buffer => buffer
  | _ => []
  end.

(** ** [main] (lines 137-147), up to the spawn in [start] *)
Inductive started :=
| Usage                          (* [sys.exit(1)] *)
| Crash                          (* an uncaught [ValueError] *)
| Spawned (self : WindowsPTY).

Definition main_spawn (E : Env) (sys_argv : list string) : started :=
  if len sys_argv <? 4 then Usage
  else
    match int E (str_of (nth 1 sys_argv EmptyString)),
          int E (str_of (nth 2 sys_argv EmptyString)) with
    | Some c, Some r =>
      Spawned (start_spawn (init c r (CmdList (skipn 3 sys_argv))))
    | _, _ => Crash
    end.

End Win.

(* ===================================================================== *)
(** * The wire format and a sample run-time environment                   *)
(* ===================================================================== *)

(** [contains eqb p l]: the sequence [p] occurs in [l] as a contiguous run. *)
Fixpoint contains {A} (eqb : A -> A -> bool) (p l : list A) : bool :=
  Py.list_eqb eqb (firstn (length p) l) p ||
  match l with
  | [] => false
  | _ :: t => contains eqb p t
  end.

(** A directive as the docstrings give it: [\x1b]RESIZE;cols;rows\x07],
    here with any parameter bytes [body]. *)
Definition directive (body : Py.bytes) : Py.bytes :=
  Unix.RESIZE ++ body ++ [Py.BEL_byte].

Definition directive_str (body : Py.str) : Py.str :=
  Win.RESIZE ++ body ++ [Py.BEL].

(** The parameters a directive body stands for, as lines 43-45 of
    [terminal_pty.py] read them: [(cols, rows)], or [None] when one of the
    steps raises [ValueError]. *)
Definition parse_params (E : Py.Env) (raw : Py.bytes) : option (Z * Z) :=
  match Py.decode_utf8 raw with
  | Some params =>
    match Py.split Py.SEMI params with
    | [cols; rows] =>
      match Py.int E cols, Py.int E rows with
      | Some c, Some r => Some (c, r)
      | _, _ => None
      end
    | _ => None
    end
  | None => None
  end.

(** An environment with ASCII-only tables in which every call is accepted. *)
Definition sample_env : Py.Env :=
  {| Py.unicode_isspace := fun _ => false;
     Py.unicode_todecimal := fun _ => None;
     Py.int_max_str_digits := 4300%N;
     Py.ioctl_ok := fun _ => true;
     Py.kill_ok := fun _ => true;
     Py.setwinsize_ok := fun _ _ => true |}.

(** The parent after the fork of child 4242, before any size was set. *)
Definition forked : Unix.World :=
  {| Unix.child_pid := Some 4242; Unix.log := [] |}.

(** The parent once [main] has set the initial size 120x40 on the master
    descriptor 3 (line 88). *)
Definition after_setup : Unix.World :=
  match Unix.set_size sample_env 3 120 40 forked with
  | Unix.Ok _ w => w
  | Unix.Raise _ w => w
  end.

(** [WindowsPTY(80, 24, ["opencode"])] after the spawn of [start]. *)
Definition spawned_80x24 : Win.WindowsPTY :=
  Win.start_spawn (Win.init 80 24 (Win.CmdList ["opencode"%string])).

(** A directive cut off before its terminator: [\x1b]RESIZE;80;2]. *)
Definition truncated : Py.bytes := Unix.RESIZE ++ Py.bytes_of "80;2".

(** The chunk [ab\x1b]RESIZE;80;24\x07cd\x1b]RESIZE;100;30\x07ef]. *)
Definition two_directives : Py.bytes :=
  Py.bytes_of "ab" ++ directive (Py.bytes_of "80;24") ++
  Py.bytes_of "cd" ++ directive (Py.bytes_of "100;30") ++ Py.bytes_of "ef".

(** ** Vocabulary for the Windows input loop *)

(** [buf] is a proper, non-empty prefix of the literal. *)
Definition matching (buf : Py.str) : Prop :=
  exists k, (1 <= k <= 8)%nat /\ buf = firstn k Win.RESIZE.

(** [self'] differs from [self] by [s] more written to the child, and at
    most in its [running] flag: nothing reported, no size changed. *)
Definition forwards_exactly (self self' : Win.WindowsPTY) (s : Py.str)
  : Prop :=
  Win.payload self' = Win.payload self ++ s /\
  Win.stderr self' = Win.stderr self /\
  Win.cols self' = Win.cols self /\
  Win.rows self' = Win.rows self /\
  option_map Win.dimensions (Win.proc self') =
  option_map Win.dimensions (Win.proc self).

(** The buffers the inner loop can hold: a proper prefix of the literal, or
    the literal followed by parameter characters. *)
Definition buffering (buf : Py.str) : Prop :=
  matching buf \/ exists body, buf = Win.RESIZE ++ body.

Definition sane (ctl : Win.control) : Prop :=
  match ctl with
  | Win.Inner buf => buffering buf
  | _ => True
  end.

(** The fields of the object that no method assigns after [__init__], and
    the size of the PTY. *)
Definition recorded (self : Win.WindowsPTY) : Z * Z :=
  (Win.cols self, Win.rows self).

Definition pty_size (self : Win.WindowsPTY) : option (Z * Z) :=
  option_map Win.dimensions (Win.proc self).

(* ===================================================================== *)
(** * [terminal_pty.py]: the two branches of [main]                       *)
(* ===================================================================== *)

Module UnixMain.
Import Py Unix.

(** What [os.read(fd, 4096)] gives when the master side is ready. *)
Inductive master_read :=
| MasterData (data : bytes)        (* the bytes read; empty at end of stream *)
| MasterError.                     (* [OSError] *)

(** What [sys.stdin.read(4096)] gives when standard input is ready: bytes
    (empty at end of input), [None] when nothing can be read, or an
    error. *)
Inductive stdin_read :=
| StdinData (data : option bytes)
| StdinError.                      (* [OSError] or [IOError] *)

(** What one turn of the [while True] loop meets (lines 99-129).  Both
    output streams are unbuffered, so a write takes some number of bytes
    ([Some n]) or raises [OSError] ([None]); the code does not look at that
    number. *)
Inductive turn :=
| SelectError                      (* [select.error]: [continue] *)
| Interrupt                        (* [KeyboardInterrupt], raised in [select] *)
| Ready (master : option master_read)   (* [fd in rlist], and the read *)
        (stdout_takes : option nat)     (* [sys.stdout.write(data)] *)
        (stdin : option stdin_read)     (* [sys.stdin in rlist], and the read *)
        (master_takes : option nat)     (* [os.write(fd, data)] *)
        (child_exited : bool).          (* [os.waitpid(pid, WNOHANG)[0] != 0] *)

(** The parent process: the module state and event log of [Unix], what
    reached the child through the master side, what reached standard
    output, and whether the master descriptor was closed. *)
Record Session := {
  world : World;
  to_child : list bytes;
  to_stdout : list bytes;
  fd_closed : bool
}.

Definition set_world (s : Session) (w : World) : Session :=
  {| world := w; to_child := to_child s; to_stdout := to_stdout s;
     fd_closed := fd_closed s |}.

Definition write_stdout (data : bytes) (s : Session) : Session :=
  {| world := world s; to_child := to_child s;
     to_stdout := to_stdout s ++ [data]; fd_closed := fd_closed s |}.

Definition write_master (data : bytes) (s : Session) : Session :=
  {| world := world s; to_child := to_child s ++ [data];
     to_stdout := to_stdout s; fd_closed := fd_closed s |}.

Definition close_master (s : Session) : Session :=
  {| world := world s; to_child := to_child s; to_stdout := to_stdout s;
     fd_closed := true |}.

(** How a turn ends: next turn, [break], or an exception nothing in the
    loop catches. *)
Inductive flow :=
| Continue
| Break
| Propagate (e : exn).

(** [if fd in rlist:] (lines 105-113) *)
Definition on_master (m : option master_read) (stdout_takes : option nat)
           (s : Session) : Session * flow :=
  match m with
  | None => (s, Continue)
  | Some MasterError => (s, Break)
  | Some (MasterData []) => (s, Break)
  | Some (MasterData (x :: data)) =>
    match stdout_takes with
    | Some n => (write_stdout (firstn n (x :: data)) s, Continue)
    | None => (s, Break)
    end
  end.

(** [if sys.stdin in rlist:] (lines 115-124) *)
Definition on_stdin (E : Env) (fd : Z) (i : option stdin_read)
           (master_takes : option nat) (s : Session) : Session * flow :=
  match i with
  | None => (s, Continue)
  | Some StdinError => (s, Continue)
  | Some (StdinData None) => (s, Continue)
  | Some (StdinData (Some [])) => (s, Continue)
  | Some (StdinData (Some (x :: data))) =>
    match handle_resize_escape E (x :: data) fd (world s) with
    | Ok [] w' => (set_world s w', Continue)
    | Ok (y :: clean) w' =>
      match master_takes with
      | Some n => (write_master (firstn n (y :: clean)) (set_world s w'),
                   Continue)
      | None => (set_world s w', Continue)
      end
    | Raise OSError w' => (set_world s w', Continue)
    | Raise e w' => (set_world s w', Propagate e)
    end
  end.

(** One turn of the loop (lines 99-129). *)
Definition one_turn (E : Env) (fd : Z) (t : turn) (s : Session)
  : Session * flow :=
  match t with
  | SelectError => (s, Continue)
  | Interrupt => (s, Break)
  | Ready m stdout_takes i master_takes child_exited =>
    match on_master m stdout_takes s with
    | (s1, Continue) =>
      match on_stdin E fd i master_takes s1 with
      | (s2, Continue) => (s2, if child_exited then Break else Continue)
      | (s2, stop) => (s2, stop)
      end
    | (s1, stop) => (s1, stop)
    end
  end.

(** The [finally] clause (lines 133-141): close the master side and send
    SIGTERM to the child, each under its own [try ... except: pass]. *)
Definition finally (E : Env) (pid : Z) (s : Session) : Session :=
  let s1 := close_master s in
  match os_kill E pid SIGTERM (world s1) with
  | Ok _ w' => set_world s1 w'
  | Raise _ w' => set_world s1 w'
  end.

(** How [main] stands after the turns given: still in the loop, returned,
    or left through an exception. *)
Inductive status :=
| Waiting
| Returned
| Uncaught (e : exn).

(** The [try: while True: ... except KeyboardInterrupt: pass finally: ...]
    statement (lines 98-141). *)
Fixpoint loop (E : Env) (pid fd : Z) (turns : list turn) (s : Session)
  : Session * status :=
  match turns with
  | [] => (s, Waiting)
  | t :: rest =>
    match one_turn E fd t s with
    | (s', Continue) => loop E pid fd rest s'
    | (s', Break) => (finally E pid s', Returned)
    | (s', Propagate e) => (finally E pid s', Uncaught e)
    end
  end.

(** The parent branch of [main] (lines 83-141): record the child, set the
    initial size, then loop.  The size is set before the [try], so an
    exception there leaves [main] at once.  The calls on the standard
    streams (lines 91-96) and [os.waitpid] are taken to succeed. *)
Definition parent (E : Env) (pid fd cols rows : Z) (turns : list turn)
           (s : Session) : Session * status :=
  let w := {| child_pid := Some pid; log := log (world s) |} in
  match set_size E fd cols rows w with
  | Ok _ w' => loop E pid fd turns (set_world s w')
  | Raise e w' => (set_world s w', Uncaught e)
  end.

(** The child branch of [main] (lines 72-81): try to set the size of its
    terminal (standard output, descriptor 1) under [except: pass], then
    execute the command.  [cmd] is [sys.argv[3:]], which has a first
    element [file] when this branch is reached. *)
Definition child (E : Env) (cols rows : Z) (file : string)
           (args : list string) (w : World) : World * started :=
  let w' := match set_size E 1 cols rows w with
            | Ok _ w1 => w1
            | Raise _ w1 => w1
            end in
  (w', Execvp file (file :: args)).

End UnixMain.

(* ===================================================================== *)
(** * [terminal_win.py]: the output side                                  *)
(* ===================================================================== *)

Module WinOutput.
Import Py Win.

(** A regular expression that is a fixed run of character classes, as the
    three patterns of [filter_focus_events] are: a first class and the
    classes that follow. *)
Fixpoint matches (classes : list (N -> bool)) (data : str) : bool :=
  match classes, data with
  | [], _ => true
  | p :: ps, c :: t => p c && matches ps t
  | _ :: _, [] => false
  end.

(** [re.sub(pattern, '', data)]: scanning from the left, every match is
    dropped and the scan goes on behind it; a character at which no match
    starts is kept. *)
Equations? re_sub_empty (p : N -> bool) (ps : list (N -> bool))
          (data : str) : str by wf (length data) lt :=
  re_sub_empty p ps [] := [];
  re_sub_empty p ps (c :: t) with matches (p :: ps) (c :: t) := {
    | true := re_sub_empty p ps (skipn (length ps) t)
    | false := c :: re_sub_empty p ps t }.
Proof.
  all: try (cbn [length]; lia).
  rewrite length_skipn. cbn [length]. lia.
Qed.

(** The class of the one character [x]. *)
Definition just (x : N) (c : N) : bool := (c =? x)%N.

(** [\x1b\[\?1004[hl]] *)
Definition focus_mode : list (N -> bool) :=
  [just 91; just 63; just 49; just 48; just 48; just 52;
   fun c => just 104 c || just 108 c]%N.

(** [filter_focus_events] (lines 68-75) *)
Definition filter_focus_events (data : str) : str :=
  let data := re_sub_empty (just ESC) focus_mode data in
  let data := re_sub_empty (just ESC) [just 91%N; just 73%N] data in
  let data := re_sub_empty (just ESC) [just 91%N; just 79%N] data in
  data.

(** What [self.proc.read(4096)] gives: text, together with whether
    [sys.stdout] then takes the write, end of file, or another
    exception. *)
Inductive proc_read :=
| ReadData (data : str) (stdout_ok : bool)
| ReadEOF                          (* [EOFError]: [break] *)
| ReadFailure.                     (* [Exception]: [time.sleep(0.01)] *)

(** [read_output] (lines 47-66) on the reads given, with what was written
    to standard output so far; the [finally] clause runs when the loop is
    left. *)
Fixpoint read_output (reads : list proc_read) (self : WindowsPTY)
         (out : list str) : WindowsPTY * list str :=
  if loop_condition self then
    match reads with
    | [] => (self, out)
    | ReadEOF :: _ => (finish self, out)
    | ReadFailure :: rest => read_output rest self out
    | ReadData [] _ :: rest => read_output rest self out
    | ReadData (c :: t) ok :: rest =>
      match filter_focus_events (c :: t) with
      | [] => read_output rest self out
      | d :: filtered =>
        read_output rest self
                    (if ok then out ++ [d :: filtered] else out)
      end
    end
  else (finish self, out).

End WinOutput.

(** ** Vocabulary for the Unix session *)

(** A turn that does not end the session and in which both streams take
    whatever is written to them whole. *)
Definition takes_all {A} (takes : option nat) (data : list A) : bool :=
  match takes with
  | Some n => (length data <=? n)%nat
  | None => false
  end.

Definition steady (t : UnixMain.turn) : bool :=
  match t with
  | UnixMain.SelectError => true
  | UnixMain.Interrupt => false
  | UnixMain.Ready m stdout_takes i master_takes child_exited =>
    negb child_exited &&
    match m with
    | None => true
    | Some UnixMain.MasterError => false
    | Some (UnixMain.MasterData []) => false
    | Some (UnixMain.MasterData data) => takes_all stdout_takes data
    end &&
    match i with
    | Some (UnixMain.StdinData (Some (x :: data))) =>
      takes_all master_takes (x :: data)
    | _ => true
    end
  end.

(** The bytes the child wrote and the bytes typed that a turn brings. *)
Definition child_wrote (t : UnixMain.turn) : Py.bytes :=
  match t with
  | UnixMain.Ready (Some (UnixMain.MasterData data)) _ _ _ _ => data
  | _ => []
  end.

Definition typed (t : UnixMain.turn) : Py.bytes :=
  match t with
  | UnixMain.Ready _ _ (Some (UnixMain.StdinData (Some data))) _ _ => data
  | _ => []
  end.

(** A session that has not relayed anything yet, after the fork of child
    4242. *)
Definition fresh_session : UnixMain.Session :=
  {| UnixMain.world := forked; UnixMain.to_child := [];
     UnixMain.to_stdout := []; UnixMain.fd_closed := false |}.

(** ** Vocabulary for the Windows output filter *)

(** The four sequences [filter_focus_events] is written for:
    [ESC[?1004h], [ESC[?1004l], [ESC[I] and [ESC[O]. *)
Definition focus_sequences : list Py.str :=
  [Py.ESC :: Py.str_of "[?1004h"; Py.ESC :: Py.str_of "[?1004l";
   Py.ESC :: Py.str_of "[I"; Py.ESC :: Py.str_of "[O"].

Definition is_focus_sequence (s : Py.str) : bool :=
  existsb (Py.str_eqb s) focus_sequences.

(** A read that brings text without ESC which standard output takes, or
    that fails and is tried again; and the text a read brings. *)
Definition plain_read (r : WinOutput.proc_read) : bool :=
  match r with
  | WinOutput.ReadData data ok => ok && negb (existsb (N.eqb Py.ESC) data)
  | WinOutput.ReadEOF => false
  | WinOutput.ReadFailure => true
  end.

Definition read_text (r : WinOutput.proc_read) : Py.str :=
  match r with
  | WinOutput.ReadData data _ => data
  | _ => []
  end.

(* ===================================================================== *)
(** * Facts about the Unix scanner                                        *)
(* ===================================================================== *)

Section UnixScanner.
Import Py Unix.

Lemma list_eqb_length {A} (eqb : A -> A -> bool) (l1 l2 : list A) :
  list_eqb eqb l1 l2 = true -> length l1 = length l2.
Proof.
  revert l2. induction l1 as [|x t1 IH]; intros [|y t2]; simpl;
    try congruence.
  intros H. apply andb_true_iff in H. destruct H as [_ H].
  f_equal. apply IH, H.
Qed.

Lemma len_nonneg {A} (l : list A) : 0 <= len l.
Proof. unfold len. lia. Qed.

(** A slice [l[i:i+8]] holds at most eight items. *)
Lemma slice_window_length {A} (l : list A) (i : Z) :
  (length (slice l i (i + 8)) <= 8)%nat.
Proof.
  unfold slice. rewrite length_firstn.
  pose proof (len_nonneg l) as Hn.
  assert (adjust (len l) (i + 8) - adjust (len l) i <= 8).
  { unfold adjust.
    destruct (i <? 0) eqn:Hi; destruct (i + 8 <? 0) eqn:Hj;
      try apply Z.ltb_lt in Hi; try apply Z.ltb_ge in Hi;
      try apply Z.ltb_lt in Hj; try apply Z.ltb_ge in Hj; lia. }
  lia.
Qed.

(** The literal has nine bytes, so the test of line 37 never holds. *)
Lemma prefix_test_fails (data : bytes) (i : Z) :
  bytes_eqb (slice data i (i + 8)) RESIZE = false.
Proof.
  destruct (bytes_eqb (slice data i (i + 8)) RESIZE) eqn:Heq; [|reflexivity].
  apply list_eqb_length in Heq.
  pose proof (slice_window_length data i) as Hle.
  rewrite Heq in Hle. simpl in Hle. lia.
Qed.

Lemma slice_one_skipn {A} (l : list A) (i : Z) :
  0 <= i < len l ->
  slice l i (i + 1) ++ skipn (Z.to_nat (i + 1)) l = skipn (Z.to_nat i) l.
Proof.
  intros Hi. unfold slice, adjust.
  destruct (i <? 0) eqn:H0; [apply Z.ltb_lt in H0; lia|].
  destruct (i + 1 <? 0) eqn:H1; [apply Z.ltb_lt in H1; lia|].
  replace (Z.min (i + 1) (len l) - Z.min i (len l)) with 1 by lia.
  replace (Z.min i (len l)) with i by lia.
  replace (Z.to_nat (i + 1)) with (1 + Z.to_nat i)%nat by lia.
  rewrite <- skipn_skipn. apply firstn_skipn.
Qed.

(** From any index on, the loop copies the rest of the chunk and touches
    nothing else. *)
Lemma scan_copies (E : Env) (data : bytes) (fd i : Z) (result : bytes)
      (w : World) :
  0 <= i ->
  scan E data fd i result w = Ok (result ++ skipn (Z.to_nat i) data) w.
Proof.
  funelim (scan E data fd i result w); intros Hi.
  - rewrite skipn_all2; [now rewrite app_nil_r|]. unfold len in *. lia.
  - rewrite H by lia. rewrite <- app_assoc, slice_one_skipn by lia.
    reflexivity.
  - rewrite prefix_test_fails in *. discriminate.
  - rewrite prefix_test_fails in *. discriminate.
  - rewrite prefix_test_fails in *. discriminate.
Qed.

(** [handle_resize_escape] returns its argument and has no effect. *)
Lemma handle_resize_escape_returns_input (E : Env) (data : bytes) (fd : Z)
      (w : World) :
  handle_resize_escape E data fd w = Ok data w.
Proof.
  unfold handle_resize_escape. rewrite scan_copies by lia. reflexivity.
Qed.

(** A chunk that holds a directive is longer than its padding alone. *)
Lemma directive_not_padding (pre body post : bytes) :
  pre ++ directive body ++ post <> pre ++ post.
Proof.
  intros H. apply (f_equal (@length byte)) in H.
  unfold directive in H. repeat rewrite length_app in H. simpl in H. lia.
Qed.

Lemma contains_here {A} (eqb : A -> A -> bool) (p l : list A) :
  (forall x, eqb x x = true) -> contains eqb p (p ++ l) = true.
Proof.
  intros Hrefl.
  assert (Hself : forall q, list_eqb eqb q q = true).
  { induction q as [|x q IH]; simpl; [reflexivity|].
    now rewrite Hrefl, IH. }
  destruct p as [|x p]; simpl.
  - destruct l; reflexivity.
  - rewrite firstn_app, firstn_all, Nat.sub_diag. simpl.
    rewrite app_nil_r, Hrefl, Hself. reflexivity.
Qed.

Lemma contains_app {A} (eqb : A -> A -> bool) (p a l : list A) :
  contains eqb p l = true -> contains eqb p (a ++ l) = true.
Proof.
  intros H. induction a as [|x a IH]; [exact H|].
  simpl. rewrite IH. apply orb_true_r.
Qed.

Lemma byte_eqb_refl (x : byte) : Byte.eqb x x = true.
Proof. now apply Byte.byte_dec_lb. Qed.

Lemma byte_eqb_sym (x y : byte) : Byte.eqb x y = Byte.eqb y x.
Proof.
  destruct (Byte.eqb x y) eqn:Hxy; destruct (Byte.eqb y x) eqn:Hyx;
    try reflexivity.
  - apply Byte.byte_dec_bl in Hxy. subst y.
    now rewrite byte_eqb_refl in Hyx.
  - apply Byte.byte_dec_bl in Hyx. subst y.
    now rewrite byte_eqb_refl in Hxy.
Qed.

Lemma existsb_skipn {A} (f : A -> bool) (k : nat) (l : list A) :
  existsb f l = false -> existsb f (skipn k l) = false.
Proof.
  revert l. induction k as [|k IH]; intros [|x t] H; try exact H.
  cbn [existsb] in H. apply orb_false_iff in H. cbn [skipn].
  apply IH, H.
Qed.

(** Where the test of line 37 holds, the byte at [i] is ESC. *)
Lemma prefix_test_head (data : bytes) (i : Z) :
  0 <= i < len data ->
  bytes_eqb (slice data i (i + 8)) RESIZE = true ->
  exists r, skipn (Z.to_nat i) data = ESC_byte :: r.
Proof.
  intros Hi. unfold slice, adjust.
  destruct (i <? 0) eqn:H0; [apply Z.ltb_lt in H0; lia|].
  replace (Z.min i (len data)) with i by lia.
  destruct (skipn (Z.to_nat i) data) as [|x r].
  - rewrite firstn_nil. discriminate.
  - destruct (Z.to_nat _) as [|k]; [discriminate|].
    cbn. intros H. apply andb_true_iff in H. destruct H as [Hx _].
    apply Byte.byte_dec_bl in Hx. subst x. now exists r.
Qed.

(** Where [data.find(b'\x07', i)] finds something, a BEL stands at or
    after [i]. *)
Lemma find_found (data : bytes) (i : Z) :
  0 <= i ->
  find data BEL_byte i <> -1 ->
  existsb (Byte.eqb BEL_byte) (skipn (Z.to_nat i) data) = true.
Proof.
  intros Hi. unfold find, adjust.
  destruct (i <? 0) eqn:H0; [apply Z.ltb_lt in H0; lia|].
  assert (Hidx : forall (l : bytes) (j : Z),
             index_from BEL_byte l j <> -1 ->
             existsb (Byte.eqb BEL_byte) l = true).
  { induction l as [|y t IH]; intros j; cbn [index_from existsb];
      [congruence|].
    rewrite (byte_eqb_sym BEL_byte y).
    destruct (Byte.eqb y BEL_byte); [reflexivity|]. apply IH. }
  destruct (Z.le_gt_cases i (len data)) as [Hle|Hgt].
  - replace (Z.min i (len data)) with i by lia. apply Hidx.
  - replace (Z.min i (len data)) with (len data) by lia.
    unfold len. rewrite Nat2Z.id, skipn_all. cbn. congruence.
Qed.

(** In a chunk made of bytes without ESC followed by bytes without BEL, no
    position can both pass the test of line 37 and have a BEL found after
    it: the test asks for ESC at that position. *)
Lemma no_terminated_escape (data pre tail : bytes) (i : Z) :
  data = pre ++ tail ->
  existsb (Byte.eqb ESC_byte) pre = false ->
  existsb (Byte.eqb BEL_byte) tail = false ->
  0 <= i < len data ->
  bytes_eqb (slice data i (i + 8)) RESIZE = true ->
  find data BEL_byte i = -1.
Proof.
  intros -> Hpre Htail Hi Htest.
  destruct (Z.eq_dec (find (pre ++ tail) BEL_byte i) (-1)) as [|Hfind];
    [assumption|exfalso].
  destruct (prefix_test_head _ _ Hi Htest) as [r Hr].
  apply find_found in Hfind; [|lia].
  rewrite skipn_app in Hr, Hfind. rewrite existsb_app in Hfind.
  rewrite (existsb_skipn _ _ tail Htail), orb_false_r in Hfind.
  pose proof (existsb_skipn _ (Z.to_nat i) pre Hpre) as Hesc.
  destruct (skipn (Z.to_nat i) pre) as [|x t]; [discriminate|].
  cbn [app] in Hr. injection Hr as -> _.
  cbn [existsb] in Hesc. now rewrite byte_eqb_refl in Hesc.
Qed.

(** The guard [if end != -1] at work: on such a chunk the loop copies
    every byte, whatever the test of line 37 answers. *)
Lemma scan_unterminated (E : Env) (data : bytes) (fd i : Z)
      (result : bytes) (w : World) :
  forall pre tail,
    data = pre ++ tail ->
    existsb (Byte.eqb ESC_byte) pre = false ->
    existsb (Byte.eqb BEL_byte) tail = false ->
    0 <= i ->
    scan E data fd i result w = Ok (result ++ skipn (Z.to_nat i) data) w.
Proof.
  funelim (scan E data fd i result w); intros pre tail Hd Hpre Htail Hi.
  - rewrite skipn_all2; [now rewrite app_nil_r|]. unfold len in *. lia.
  - rewrite (H pre tail Hd Hpre Htail) by lia.
    rewrite <- app_assoc, slice_one_skipn by lia. reflexivity.
  - rewrite (H pre tail Hd Hpre Htail) by lia.
    rewrite <- app_assoc, slice_one_skipn by lia. reflexivity.
  - exfalso.
    pose proof (no_terminated_escape data pre tail i Hd Hpre Htail
                  ltac:(lia) ltac:(assumption)).
    congruence.
  - exfalso.
    pose proof (no_terminated_escape data pre tail i Hd Hpre Htail
                  ltac:(lia) ltac:(assumption)).
    congruence.
Qed.

End UnixScanner.

(* ===================================================================== *)
(** * Facts about the Windows input loop                                  *)
(* ===================================================================== *)

Section WinInput.
Import Py Win.

Lemma str_eqb_eq (a c : str) : str_eqb a c = true <-> a = c.
Proof.
  unfold str_eqb. revert c.
  induction a as [|x a IH]; intros [|y c]; simpl; split; try congruence.
  - intros H. apply andb_true_iff in H. destruct H as [Hx Ha].
    apply N.eqb_eq in Hx. apply IH in Ha. congruence.
  - intros H. injection H as -> ->. rewrite N.eqb_refl. now apply IH.
Qed.

Lemma RESIZE_chars : RESIZE = [27; 93; 82; 69; 83; 73; 90; 69; 59]%N.
Proof. reflexivity. Qed.

(** One turn of the inner loop on a buffer [buf ++ [c]] whose last
    character is compared with [x], the character of the literal at that
    place: the turn stays in the loop when they agree and leaves it, writing
    the buffer, when they differ. *)
Ltac turn_on c x :=
  destruct (N.eqb_spec c x) as [->|Hne];
  [ left; split; [reflexivity|]
  | right; apply N.eqb_neq in Hne;
    pose proof Hne as Hne'; rewrite N.eqb_sym in Hne';
    cbv -[N.eqb leave_inner handle_resize];
    rewrite ?Hne, ?Hne'; reflexivity ].

Lemma turn_matching (E : Env) (buf : str) (c : N) (self : WindowsPTY) :
  matching buf ->
  (inner_turn E buf c self = (Inner (buf ++ [c]), self) /\
   (matching (buf ++ [c]) \/ buf ++ [c] = RESIZE)) \/
  inner_turn E buf c self = leave_inner (buf ++ [c]) self.
Proof.
  intros (k & Hk & ->).
  assert (Hcases : (k = 1 \/ k = 2 \/ k = 3 \/ k = 4 \/ k = 5 \/ k = 6 \/
                   k = 7 \/ k = 8)%nat) by lia.
  clear Hk. unfold matching, inner_turn. rewrite RESIZE_chars.
  destruct Hcases as [->|[->|[->|[->|[->|[->|[->| ->]]]]]]];
    cbn [firstn app];
    [ turn_on c 93%N | turn_on c 82%N | turn_on c 69%N | turn_on c 83%N
    | turn_on c 73%N | turn_on c 90%N | turn_on c 69%N | turn_on c 59%N ].
  8: now right.
  all: left.
  1: exists 2%nat. 2: exists 3%nat. 3: exists 4%nat. 4: exists 5%nat.
  5: exists 6%nat. 6: exists 7%nat. 7: exists 8%nat.
  all: split; [lia|reflexivity].
Qed.

Lemma turn_collecting (E : Env) (body : str) (c : N) (self : WindowsPTY) :
  inner_turn E (RESIZE ++ body) c self =
  if (c =? BEL)%N
  then leave_inner [] (handle_resize E (RESIZE ++ body ++ [c]) self)
  else (Inner (RESIZE ++ body ++ [c]), self).
Proof.
  unfold inner_turn. rewrite <- app_assoc.
  assert (Hs : startswith (RESIZE ++ body ++ [c]) RESIZE = true).
  { rewrite RESIZE_chars. reflexivity. }
  rewrite Hs. reflexivity.
Qed.

Lemma slice_directive_params (body : str) :
  slice (RESIZE ++ body ++ [BEL]) 8 (-1) = SEMI :: body.
Proof.
  unfold slice, adjust, len.
  rewrite !length_app. rewrite RESIZE_chars.
  cbn [length Z.ltb Z.compare].
  replace (Z.to_nat (Z.max 0 (-1 + Z.of_nat (9 + (length body + 1))) -
                     Z.min 8 (Z.of_nat (9 + (length body + 1)))))
    with (S (length body)) by lia.
  replace (Z.to_nat (Z.min 8 (Z.of_nat (9 + (length body + 1)))))
    with 8%nat by lia.
  cbn [skipn app firstn]. f_equal.
  rewrite firstn_app, firstn_all, Nat.sub_diag. cbn. apply app_nil_r.
Qed.

(** On a buffer of the shape [handle_input] passes, [handle_resize] only
    ever reports an error: the slice of line 130 keeps the [;] that ends
    the literal, so the first field is empty. *)
Lemma handle_resize_directive (E : Env) (body : str) (self : WindowsPTY) :
  exists e,
    handle_resize E (RESIZE ++ body ++ [BEL]) self = stderr_write e self /\
    (proc self <> None -> e = ValueError).
Proof.
  unfold handle_resize, resize_body. rewrite slice_directive_params.
  cbn [split]. rewrite N.eqb_refl.
  destruct (split SEMI body) as [|f1 [|f2 fs]].
  - exists ValueError. split; [reflexivity|tauto].
  - destruct (proc self) as [p|].
    + exists ValueError. split; [|tauto].
      destruct (int E f1); reflexivity.
    + exists AttributeError. split; [reflexivity|congruence].
  - exists ValueError. split; [reflexivity|tauto].
Qed.


Lemma feed_app (E : Env) (s : control * WindowsPTY) (a c : str) :
  feed E s (a ++ c) = feed E (feed E s a) c.
Proof. apply fold_left_app. Qed.

Lemma feed_prefix (E : Env) (self : WindowsPTY) :
  loop_condition self = true ->
  feed E (Outer, self) RESIZE = (Inner RESIZE, self).
Proof.
  intros H. rewrite RESIZE_chars. unfold feed. cbn [fold_left step].
  rewrite H. reflexivity.
Qed.

Lemma feed_collecting (E : Env) (self : WindowsPTY) (body2 body1 : str) :
  existsb (N.eqb BEL) body2 = false ->
  feed E (Inner (RESIZE ++ body1), self) body2 =
  (Inner (RESIZE ++ body1 ++ body2), self).
Proof.
  revert body1. induction body2 as [|c t IH]; intros body1 H.
  - now rewrite app_nil_r.
  - cbn [existsb] in H. apply orb_false_iff in H. destruct H as [Hc Ht].
    unfold feed in *. cbn [fold_left step].
    rewrite turn_collecting. rewrite N.eqb_sym, Hc.
    specialize (IH (body1 ++ [c]) Ht).
    rewrite <- app_assoc in IH. exact IH.
Qed.

(** A complete directive typed at the head of the outer loop is consumed
    and ends in a report on stderr. *)
Lemma feed_directive (E : Env) (self : WindowsPTY) (body : str) :
  loop_condition self = true ->
  existsb (N.eqb BEL) body = false ->
  feed E (Outer, self) (directive_str body) =
  (Outer, stderr_write ValueError self).
Proof.
  intros Hloop Hbody. unfold directive_str.
  rewrite feed_app, feed_prefix by exact Hloop.
  rewrite feed_app.
  pose proof (feed_collecting E self body [] Hbody) as Hc.
  rewrite app_nil_r in Hc. cbn [app] in Hc. rewrite Hc.
  unfold feed. cbn [fold_left step].
  rewrite turn_collecting, N.eqb_refl.
  destruct (handle_resize_directive E body self) as (e & -> & He).
  rewrite He; [reflexivity|].
  unfold loop_condition in Hloop. destruct (proc self); [congruence|].
  now rewrite andb_false_r in Hloop.
Qed.


Lemma forwards_refl (self : WindowsPTY) : forwards_exactly self self [].
Proof. unfold forwards_exactly. rewrite app_nil_r. tauto. Qed.

Lemma forwards_trans (a c d : WindowsPTY) (s t : str) :
  forwards_exactly a c s -> forwards_exactly c d t ->
  forwards_exactly a d (s ++ t).
Proof.
  unfold forwards_exactly.
  intros (H1 & H2 & H3 & H4 & H5) (K1 & K2 & K3 & K4 & K5).
  rewrite K1, H1, app_assoc. repeat split; congruence.
Qed.

Lemma finish_forwards (self : WindowsPTY) :
  forwards_exactly self (finish self) [].
Proof.
  unfold forwards_exactly, finish, set_running, payload. cbn.
  rewrite app_nil_r. tauto.
Qed.

Lemma proc_write_forwards (self : WindowsPTY) (s : str) :
  loop_condition self = true ->
  forwards_exactly self (proc_write s self) s /\
  loop_condition (proc_write s self) = true.
Proof.
  unfold loop_condition, forwards_exactly, proc_write, payload.
  intros H. apply andb_true_iff in H. destruct H as [Hrun Hlive].
  destruct (proc self) as [p|]; [|discriminate].
  rewrite Hlive. cbn. rewrite Hrun.
  rewrite concat_app. cbn. rewrite app_nil_r. tauto.
Qed.

Lemma contains_tail {A} (eqb : A -> A -> bool) (p : list A) (x : A)
      (l : list A) :
  contains eqb p (x :: l) = false -> contains eqb p l = false.
Proof.
  cbn [contains]. intros H. apply orb_false_iff in H. tauto.
Qed.

Lemma contains_suffix {A} (eqb : A -> A -> bool) (p a l : list A) :
  contains eqb p (a ++ l) = false -> contains eqb p l = false.
Proof.
  intros H. destruct (contains eqb p l) eqn:Hl; [|reflexivity].
  now rewrite (contains_app eqb p a l Hl) in H.
Qed.

(** Input free of the literal is written to the child as it comes, from
    the head of the outer loop or from a buffer that holds a proper prefix
    of the literal. *)
Lemma feed_plain (E : Env) (stdin : str) :
  forall (ctl : control) (buf : str) (self : WindowsPTY),
    loop_condition self = true ->
    (ctl = Outer /\ buf = []) \/ (ctl = Inner buf /\ matching buf) ->
    contains N.eqb RESIZE (buf ++ stdin) = false ->
    forwards_exactly self (at_eof (feed E (ctl, self) stdin)) (buf ++ stdin).
Proof.
  induction stdin as [|c t IH]; intros ctl buf self Hloop Hctl Hfree.
  - rewrite app_nil_r. unfold feed. cbn [fold_left].
    destruct Hctl as [[-> ->]|[-> Hm]]; cbn [at_eof].
    + apply finish_forwards.
    + destruct Hm as (k & Hk & Hbuf).
      assert (Hne : buf <> []).
      { rewrite Hbuf, RESIZE_chars. destruct k; [lia|discriminate]. }
      unfold leave_inner. destruct buf as [|x buf]; [congruence|].
      cbn [snd]. rewrite <- (app_nil_r (x :: buf)) at 2.
      eapply forwards_trans; [|apply finish_forwards].
      now apply proc_write_forwards.
  - unfold feed in *. cbn [fold_left].
    destruct Hctl as [[-> ->]|[-> Hm]]; cbn [step app] in *.
    + rewrite Hloop. unfold outer_turn.
      destruct (N.eqb_spec c ESC) as [->|Hne].
      * apply (IH (Inner [ESC]) [ESC] self Hloop); [|exact Hfree].
        right. split; [reflexivity|]. exists 1%nat. split; [lia|reflexivity].
      * destruct (proc_write_forwards self [c] Hloop) as [Hw Hloop'].
        change (c :: t) with ([c] ++ t).
        eapply forwards_trans; [exact Hw|].
        apply (IH Outer [] _ Hloop'); [tauto|].
        cbn [app]. now apply contains_tail in Hfree.
    + destruct (turn_matching E buf c self Hm) as [[-> [Hm'|Hfull]]| ->].
      * replace (buf ++ c :: t) with ((buf ++ [c]) ++ t)
          by (now rewrite <- app_assoc).
        apply (IH (Inner (buf ++ [c])) (buf ++ [c]) self Hloop); [tauto|].
        now rewrite <- app_assoc.
      * exfalso.
        replace (buf ++ c :: t) with (RESIZE ++ t) in Hfree
          by (now rewrite <- Hfull, <- app_assoc).
        rewrite contains_here in Hfree; [discriminate|apply N.eqb_refl].
      * unfold leave_inner.
        destruct (buf ++ [c]) as [|x l] eqn:Hbc;
          [now destruct buf|]. rewrite <- Hbc.
        destruct (proc_write_forwards self (buf ++ [c]) Hloop)
          as [Hw Hloop'].
        replace (buf ++ c :: t) with ((buf ++ [c]) ++ t)
          by (now rewrite <- app_assoc).
        eapply forwards_trans; [exact Hw|].
        apply (IH Outer [] _ Hloop'); [tauto|].
        cbn [app]. apply (contains_suffix _ _ (buf ++ [c])).
        now rewrite <- app_assoc.
Qed.


(** ** What a run of [handle_input] leaves alone *)

Lemma proc_write_keeps (s : str) (self : WindowsPTY) :
  recorded (proc_write s self) = recorded self /\
  pty_size (proc_write s self) = pty_size self.
Proof.
  unfold proc_write, recorded, pty_size.
  destruct (proc self) as [p|] eqn:Hp; [|now rewrite Hp].
  destruct (isalive p); [|now rewrite Hp]. cbn. tauto.
Qed.

Lemma leave_inner_keeps (buf : str) (self : WindowsPTY) :
  fst (leave_inner buf self) = Outer /\
  recorded (snd (leave_inner buf self)) = recorded self /\
  pty_size (snd (leave_inner buf self)) = pty_size self.
Proof.
  unfold leave_inner. cbn [fst snd]. split; [reflexivity|].
  destruct buf; [tauto|apply proc_write_keeps].
Qed.

Lemma handle_resize_keeps_recorded (E : Env) (data : str)
      (self : WindowsPTY) :
  recorded (handle_resize E data self) = recorded self.
Proof.
  unfold handle_resize, resize_body.
  destruct (split SEMI (slice data 8 (-1))) as [|f1 [|f2 [|f3 fs]]];
    try reflexivity.
  destruct (proc self) as [p|]; [|reflexivity].
  destruct (int E f2) as [r|]; [|reflexivity].
  destruct (int E f1) as [c|]; [|reflexivity].
  unfold setwinsize. destruct (setwinsize_ok E r c); reflexivity.
Qed.

Lemma step_keeps_recorded (E : Env) (s : control * WindowsPTY) (ch : N) :
  recorded (snd (step E s ch)) = recorded (snd s).
Proof.
  destruct s as [[|buf|] self]; cbn [step snd].
  - destruct (loop_condition self); [|reflexivity].
    unfold outer_turn. destruct (ch =? ESC)%N; [reflexivity|].
    apply proc_write_keeps.
  - unfold inner_turn.
    repeat match goal with
           | |- context [if ?c then _ else _] => destruct c
           end;
      try reflexivity;
      try (rewrite (proj1 (proj2 (leave_inner_keeps _ _)));
           try apply handle_resize_keeps_recorded; reflexivity).
  - reflexivity.
Qed.

Lemma feed_keeps_recorded (E : Env) (stdin : str) :
  forall s, recorded (snd (feed E s stdin)) = recorded (snd s).
Proof.
  unfold feed. induction stdin as [|c t IH]; intros s; cbn [fold_left].
  - reflexivity.
  - rewrite IH. apply step_keeps_recorded.
Qed.

Lemma at_eof_keeps_recorded (s : control * WindowsPTY) :
  recorded (at_eof s) = recorded (snd s).
Proof.
  destruct s as [[|buf|] self]; cbn [at_eof snd]; try reflexivity.
  unfold finish, set_running, recorded. cbn.
  apply (proj1 (proj2 (leave_inner_keeps buf self))).
Qed.

Lemma step_sane (E : Env) (s : control * WindowsPTY) (ch : N) :
  sane (fst s) ->
  sane (fst (step E s ch)) /\
  pty_size (snd (step E s ch)) = pty_size (snd s).
Proof.
  destruct s as [[|buf|] self]; cbn [step fst snd sane].
  - intros _. destruct (loop_condition self); [|split; [exact I|reflexivity]].
    unfold outer_turn. destruct (N.eqb_spec ch ESC) as [->|Hne];
      cbn [fst snd sane].
    + split; [|reflexivity]. left. exists 1%nat.
      split; [lia|reflexivity].
    + split; [exact I|apply proc_write_keeps].
  - intros [Hm|[body ->]].
    + destruct (turn_matching E buf ch self Hm) as [[-> [Hm'|Hfull]]| ->];
        cbn [fst snd sane].
      * split; [now left|reflexivity].
      * split; [|reflexivity]. right. exists []. now rewrite app_nil_r.
      * destruct (leave_inner_keeps (buf ++ [ch]) self) as (-> & _ & ->).
        split; [exact I|reflexivity].
    + rewrite turn_collecting. destruct (N.eqb_spec ch BEL) as [->|Hne].
      * destruct (handle_resize_directive E body self) as (e & -> & _).
        destruct (leave_inner_keeps [] (stderr_write e self))
          as (-> & _ & ->).
        split; [exact I|reflexivity].
      * cbn [fst snd sane]. split; [|reflexivity].
        right. exists (body ++ [ch]). reflexivity.
  - intros _. split; [exact I|reflexivity].
Qed.

(** No input makes [handle_input] change the size of the PTY. *)
Lemma handle_input_keeps_pty_size (E : Env) (self : WindowsPTY)
      (stdin : str) :
  pty_size (handle_input E self stdin) = pty_size self.
Proof.
  unfold handle_input.
  assert (H : forall s, sane (fst s) ->
              pty_size (at_eof (feed E s stdin)) = pty_size (snd s)).
  { unfold feed. induction stdin as [|c t IH]; intros s Hs; cbn [fold_left].
    - destruct s as [[|buf|] s0]; cbn [at_eof snd]; try reflexivity.
      unfold finish, set_running, pty_size. cbn.
      apply (proj2 (proj2 (leave_inner_keeps buf s0))).
    - destruct (step_sane E s c Hs) as [Hs' Hsize].
      rewrite (IH _ Hs'). exact Hsize. }
  apply (H (Outer, self)). exact I.
Qed.

End WinInput.

(* ===================================================================== *)
(** * Facts about the Unix parent loop                                    *)
(* ===================================================================== *)

Section UnixLoop.
Import Py Unix UnixMain.

Lemma set_world_same (s : Session) : set_world s (world s) = s.
Proof. now destruct s. Qed.

(** The standard-input step: the chunk read goes to the master side as it
    is, cut to what the write takes; nothing else changes. *)
Lemma on_stdin_relays (E : Env) (fd : Z) (i : option stdin_read)
      (master_takes : option nat) (s : Session) :
  on_stdin E fd i master_takes s =
  (match i, master_takes with
   | Some (StdinData (Some (x :: data))), Some n =>
     write_master (firstn n (x :: data)) s
   | _, _ => s
   end, Continue).
Proof.
  unfold on_stdin.
  destruct i as [[[[|x data]|]|]|]; try reflexivity.
  rewrite handle_resize_escape_returns_input, set_world_same.
  destruct master_takes; reflexivity.
Qed.

Lemma on_master_world (m : option master_read) (takes : option nat)
      (s : Session) :
  world (fst (on_master m takes s)) = world s /\
  fd_closed (fst (on_master m takes s)) = fd_closed s /\
  (forall e, snd (on_master m takes s) <> Propagate e).
Proof.
  unfold on_master.
  destruct m as [[[|x data]|]|]; try destruct takes; cbn;
    repeat split; try discriminate; intros e; discriminate.
Qed.

(** A turn leaves the world and the master descriptor alone and never ends
    in an exception. *)
Lemma one_turn_quiet (E : Env) (fd : Z) (t : turn) (s : Session) :
  world (fst (one_turn E fd t s)) = world s /\
  fd_closed (fst (one_turn E fd t s)) = fd_closed s /\
  forall e, snd (one_turn E fd t s) <> Propagate e.
Proof.
  destruct t as [| |m so i mo exited]; cbn [one_turn].
  - cbn. repeat split. intros e; discriminate.
  - cbn. repeat split. intros e; discriminate.
  - destruct (on_master_world m so s) as (Hw & Hc & Hp).
    destruct (on_master m so s) as [s1 [| |e]] eqn:Hm; cbn [fst snd] in *.
    + rewrite on_stdin_relays.
      destruct i as [[[[|x data]|]|]|]; try destruct mo; cbn [fst snd];
        (split; [exact Hw|split; [exact Hc|]]);
        intros e; destruct exited; discriminate.
    + split; [exact Hw|split; [exact Hc|]]. intros e; discriminate.
    + exfalso. now apply (Hp e).
Qed.

Lemma finally_effect (E : Env) (pid : Z) (s : Session) :
  fd_closed (finally E pid s) = true /\
  to_child (finally E pid s) = to_child s /\
  to_stdout (finally E pid s) = to_stdout s /\
  child_pid (world (finally E pid s)) = child_pid (world s) /\
  log (world (finally E pid s)) =
  log (world s) ++ (if kill_ok E pid then [Kill pid SIGTERM] else []).
Proof.
  unfold finally, os_kill, close_master, set_world, emit.
  cbn [world]. destruct (kill_ok E pid); cbn.
  - tauto.
  - rewrite app_nil_r. tauto.
Qed.

(** The two ways the loop can stand after any turns. *)
Lemma loop_outcome (E : Env) (pid fd : Z)
        (turns : list turn) (s : Session) :
  (snd (loop E pid fd turns s) = Waiting /\
   world (fst (loop E pid fd turns s)) = world s /\
   fd_closed (fst (loop E pid fd turns s)) = fd_closed s) \/
  (snd (loop E pid fd turns s) = Returned /\
   fd_closed (fst (loop E pid fd turns s)) = true /\
   child_pid (world (fst (loop E pid fd turns s))) = child_pid (world s) /\
   log (world (fst (loop E pid fd turns s))) =
   log (world s) ++ (if kill_ok E pid then [Kill pid SIGTERM] else [])).
Proof.
  revert s. induction turns as [|t rest IH]; intros s; cbn [loop].
  - left. cbn. tauto.
  - destruct (one_turn_quiet E fd t s) as (Hw & Hc & Hp).
    destruct (one_turn E fd t s) as [s1 [| |e]]; cbn [fst snd] in *.
    + rewrite <- Hw, <- Hc. apply IH.
    + right. cbn [fst snd].
      destruct (finally_effect E pid s1) as (H1 & _ & _ & H4 & H5).
      rewrite H1, H4, H5, Hw. tauto.
    + exfalso. now apply (Hp e).
Qed.



End UnixLoop.

(* ===================================================================== *)
(** * The claims                                                          *)
(* ===================================================================== *)

Section Claims.
Import Py.

(** C1 (the code departs from its docstring).  The claim: a chunk of plain
    bytes around one directive [ESC ] RESIZE ; c ; r BEL] comes back as the
    plain bytes alone, and one resize to [c] columns and [r] rows is
    applied.  The code: line 37 compares the 8-byte slice [data[i:i+8]]
    with the 9-byte literal, which never holds, so for every padding and
    every parameter body the chunk comes back whole, directive included,
    and the world is left as it was: nothing is stripped, nothing
    resized. *)
Theorem C1_directive_left_in_payload (E : Env) (fd : Z) (w : Unix.World)
        (pre body post : bytes) :
  Unix.handle_resize_escape E (pre ++ directive body ++ post) fd w =
  Unix.Ok (pre ++ directive body ++ post) w /\
  pre ++ directive body ++ post <> pre ++ post.
Proof.
  split.
  - apply handle_resize_escape_returns_input.
  - apply directive_not_padding.
Qed.

(** C2.  An input that does not contain the literal [ESC ] RESIZE ;] passes
    through unchanged and resizes nothing, in both variants: the chunk
    scanner returns the chunk itself and leaves the world as it was; the
    interactive loop, run while the child is alive, writes exactly the
    input to the child, reports nothing and changes no size. *)
Theorem C2_passthrough_identity (E : Env) (data : bytes) (fd : Z)
        (w : Unix.World) (stdin : str) (self : Win.WindowsPTY) :
  contains Byte.eqb Unix.RESIZE data = false ->
  contains N.eqb Win.RESIZE stdin = false ->
  Win.loop_condition self = true ->
  Unix.handle_resize_escape E data fd w = Unix.Ok data w /\
  forwards_exactly self (Win.handle_input E self stdin) stdin.
Proof.
  intros _ Hfree Hloop. split.
  - apply handle_resize_escape_returns_input.
  - unfold Win.handle_input.
    apply (feed_plain E stdin Win.Outer [] self Hloop); [tauto|exact Hfree].
Qed.

Lemma C2_passthrough_identity_witness :
  Unix.handle_resize_escape sample_env (bytes_of "ls -la") 3 forked =
  Unix.Ok (bytes_of "ls -la") forked /\
  forwards_exactly spawned_80x24
    (Win.handle_input sample_env spawned_80x24 (ESC :: str_of "[A ls"))
    (ESC :: str_of "[A ls").
Proof.
  apply (C2_passthrough_identity sample_env (bytes_of "ls -la") 3 forked
           (ESC :: str_of "[A ls") spawned_80x24); reflexivity.
Defined.

(** C3 (amended).  A chunk in which the literal [ESC ] RESIZE ;] occurs and
    no BEL stands at or after the first ESC of the chunk is returned whole:
    the guard [if end != -1] sends every byte of the unterminated directive
    to the copy of line 53, so they are forwarded as plain data, and
    nothing is resized or reported. *)
Theorem C3_unterminated_directive_forwarded (E : Env) (fd : Z)
        (w : Unix.World) (pre mid rest : bytes) :
  existsb (Byte.eqb ESC_byte) pre = false ->
  existsb (Byte.eqb BEL_byte) mid = false ->
  existsb (Byte.eqb BEL_byte) rest = false ->
  Unix.handle_resize_escape E (pre ++ mid ++ Unix.RESIZE ++ rest) fd w =
  Unix.Ok (pre ++ mid ++ Unix.RESIZE ++ rest) w.
Proof.
  intros Hpre Hmid Hrest. unfold Unix.handle_resize_escape.
  rewrite (scan_unterminated E _ fd 0 [] w pre
             (mid ++ Unix.RESIZE ++ rest) eq_refl Hpre); [reflexivity| |lia].
  rewrite !existsb_app, Hmid, Hrest. reflexivity.
Qed.

Lemma C3_unterminated_directive_forwarded_witness :
  Unix.handle_resize_escape sample_env
    (bytes_of "ab" ++ (ESC_byte :: bytes_of "[A") ++ Unix.RESIZE ++
     bytes_of "80;2") 3 forked =
  Unix.Ok (bytes_of "ab" ++ (ESC_byte :: bytes_of "[A") ++ Unix.RESIZE ++
           bytes_of "80;2") forked.
Proof.
  apply (C3_unterminated_directive_forwarded sample_env 3 forked
           (bytes_of "ab") (ESC_byte :: bytes_of "[A") (bytes_of "80;2"));
    reflexivity.
Defined.

(** C3, as stated, fails on [\x1b]RESIZE;80;2]: the literal occurs at
    position 0, no BEL follows, and the clean payload that comes back
    contains the literal. *)
Lemma C3_truncated_prefix_in_payload :
  contains Byte.eqb Unix.RESIZE truncated = true /\
  existsb (Byte.eqb BEL_byte) truncated = false /\
  exists out w',
    Unix.handle_resize_escape sample_env truncated 3 forked = Unix.Ok out w' /\
    contains Byte.eqb Unix.RESIZE out = true.
Proof.
  split; [reflexivity|]. split; [reflexivity|].
  exists truncated, forked. split; [|reflexivity].
  unfold Unix.handle_resize_escape.
  now rewrite (scan_unterminated sample_env truncated 3 0 [] forked
                 [] truncated eq_refl eq_refl eq_refl).
Qed.

(** C4 (the code departs from its own comment).  The claim: the pending
    buffer of the interactive loop never grows past 50 characters.  The
    code: the test [len(buffer) > 50] ("Too long, not a resize") sits in an
    [elif] of [buffer.startswith('\x1b]RESIZE;')], so it is never reached
    once the buffer starts with the literal; from then on every character
    other than BEL is appended.  After the literal and any BEL-free [body]
    the loop is still inside the inner loop, holding all of it. *)
Theorem C4_pending_buffer_unbounded (E : Env) (self : Win.WindowsPTY)
        (body : str) :
  Win.loop_condition self = true ->
  existsb (N.eqb BEL) body = false ->
  Win.feed E (Win.Outer, self) (Win.RESIZE ++ body) =
  (Win.Inner (Win.RESIZE ++ body), self) /\
  len (Win.pending (Win.feed E (Win.Outer, self) (Win.RESIZE ++ body))) =
  9 + len body.
Proof.
  intros Hloop Hbody.
  assert (Hfeed : Win.feed E (Win.Outer, self) (Win.RESIZE ++ body) =
                  (Win.Inner (Win.RESIZE ++ body), self)).
  { rewrite feed_app, feed_prefix by exact Hloop.
    pose proof (feed_collecting E self body [] Hbody) as Hc.
    rewrite app_nil_r in Hc. exact Hc. }
  split; [exact Hfeed|].
  rewrite Hfeed. unfold Win.pending, len. cbn [fst].
  rewrite length_app, RESIZE_chars. cbn [length]. lia.
Qed.

Lemma C4_pending_buffer_unbounded_witness :
  len (Win.pending (Win.feed sample_env (Win.Outer, spawned_80x24)
                             (Win.RESIZE ++ repeat 97%N 100))) = 109.
Proof.
  apply (C4_pending_buffer_unbounded sample_env spawned_80x24
           (repeat 97%N 100)); reflexivity.
Defined.

(** C5 (the code departs from its own handler).  The claim: a directive
    with invalid dimensions is discarded and reported, and the session goes
    on.  The code: lines 42-52 hold the report ([Resize error]) and the
    skip past the directive ([i = end + 1]), but the test of line 37 never
    lets them run (see C1).  Around any padding a directive for 0 columns
    and 0 rows, or for -5 columns, comes back whole, so it is forwarded to
    the child, and the world is as before: nothing is reported. *)
Theorem C5_invalid_size_directive_forwarded (E : Env) (fd : Z)
        (w : Unix.World) (pre post : bytes) :
  let zero := pre ++ directive (bytes_of "0;0") ++ post in
  let negative := pre ++ directive (bytes_of "-5;24") ++ post in
  Unix.handle_resize_escape E zero fd w = Unix.Ok zero w /\
  contains Byte.eqb (directive (bytes_of "0;0")) zero = true /\
  Unix.handle_resize_escape E negative fd w = Unix.Ok negative w /\
  contains Byte.eqb (directive (bytes_of "-5;24")) negative = true.
Proof.
  cbv zeta. split; [|split; [|split]].
  - apply handle_resize_escape_returns_input.
  - apply contains_app, contains_here, byte_eqb_refl.
  - apply handle_resize_escape_returns_input.
  - apply contains_app, contains_here, byte_eqb_refl.
Qed.



(** C7 (the code departs from its docstring).  The claim: two directives in
    one chunk are applied in order, so that [RESIZE;80;24] followed by
    [RESIZE;100;30] leaves the terminal at (100, 30).  The code: neither
    directive is recognised (see C1); around any padding the chunk comes
    back whole and the world is untouched, so a terminal set up at 120x40
    is still at 120x40 afterwards. *)
Theorem C7_two_directives_resize_nothing (E : Env) (fd : Z)
        (w : Unix.World) (p0 p1 p2 : bytes) :
  (let chunk := p0 ++ directive (bytes_of "80;24") ++
                p1 ++ directive (bytes_of "100;30") ++ p2 in
   Unix.handle_resize_escape E chunk fd w = Unix.Ok chunk w) /\
  Unix.terminal_size 3 (Unix.log after_setup) None = Some (120, 40) /\
  match Unix.handle_resize_escape sample_env two_directives 3 after_setup with
  | Unix.Ok out w' =>
    out = two_directives /\
    Unix.terminal_size 3 (Unix.log w') None = Some (120, 40)
  | Unix.Raise _ _ => False
  end.
Proof.
  split; [apply handle_resize_escape_returns_input|].
  split; [reflexivity|].
  rewrite handle_resize_escape_returns_input. split; reflexivity.
Qed.

(** C8 (the code departs from its docstring).  The claim: a directive with
    a malformed parameter body is consumed, reported and resizes nothing,
    in both variants.  The code, chunk variant: the directive
    [ESC ] RESIZE ; abc ; 10 BEL], whose body does not parse, is not
    recognised (see C1); the chunk comes back whole, so the malformed span
    is forwarded to the child, and nothing is reported. *)
Theorem C8_malformed_directive_forwarded (E : Env) (fd : Z)
        (w : Unix.World) (pre post : bytes) :
  parse_params E (bytes_of "abc;10") = None /\
  Unix.handle_resize_escape E (pre ++ directive (bytes_of "abc;10") ++ post)
                            fd w =
  Unix.Ok (pre ++ directive (bytes_of "abc;10") ++ post) w /\
  contains Byte.eqb (directive (bytes_of "abc;10"))
           (pre ++ directive (bytes_of "abc;10") ++ post) = true.
Proof.
  split; [reflexivity|]. split.
  - apply handle_resize_escape_returns_input.
  - apply contains_app, contains_here, byte_eqb_refl.
Qed.


(** C10.  The Windows backend spawns the space-joined argument list, so
    two command lines whose commands have the same join spawn the same
    process object; the Unix backend hands [sys.argv[3:]] to [os.execvp]
    as it is, with its first item as the program, so the two command
    lines execute each its own list. *)
Theorem C10_windows_joins_unix_keeps (E : Env) (c r : Z)
        (script cs rs f1 f2 : string) (a1 a2 : list string) :
  int E (str_of cs) = Some c ->
  int E (str_of rs) = Some r ->
  String.concat " " (f1 :: a1) = String.concat " " (f2 :: a2) ->
  Win.main_spawn E (script :: cs :: rs :: f1 :: a1) =
  Win.Spawned (Win.start_spawn (Win.init c r (Win.CmdList (f1 :: a1)))) /\
  Win.main_spawn E (script :: cs :: rs :: f2 :: a2) =
  Win.Spawned (Win.start_spawn (Win.init c r (Win.CmdList (f2 :: a2)))) /\
  Win.proc (Win.start_spawn (Win.init c r (Win.CmdList (f1 :: a1)))) =
  Win.proc (Win.start_spawn (Win.init c r (Win.CmdList (f2 :: a2)))) /\
  option_map Win.argv (Win.proc (Win.start_spawn
                                   (Win.init c r (Win.CmdList (f1 :: a1))))) =
  Some (String.concat " " (f1 :: a1)) /\
  Unix.main_child E (script :: cs :: rs :: f1 :: a1) =
  Unix.Execvp f1 (f1 :: a1) /\
  Unix.main_child E (script :: cs :: rs :: f2 :: a2) =
  Unix.Execvp f2 (f2 :: a2).
Proof.
  intros Hc Hr Hjoin.
  assert (Hlen : forall (f : string) (a : list string),
             (len (script :: cs :: rs :: f :: a) <? 4) = false).
  { intros f a. apply Z.ltb_ge. unfold len. cbn [length]. lia. }
  unfold Win.main_spawn, Unix.main_child. rewrite !Hlen.
  cbn [nth skipn]. rewrite Hc, Hr.
  split; [reflexivity|]. split; [reflexivity|]. split.
  - unfold Win.start_spawn, Win.init, Win.cmd_str.
    cbn [Win.cmd Win.rows Win.cols Win.set_proc Win.proc].
    now rewrite Hjoin.
  - split; [reflexivity|]. split; reflexivity.
Qed.

Lemma C10_windows_joins_unix_keeps_witness :
  ["a b"; "c"]%string <> ["a"; "b c"]%string /\
  Win.main_spawn sample_env ["wrapper"; "80"; "24"; "a b"; "c"]%string =
  Win.Spawned (Win.start_spawn
                 (Win.init 80 24 (Win.CmdList ["a b"; "c"]%string))) /\
  Win.main_spawn sample_env ["wrapper"; "80"; "24"; "a"; "b c"]%string =
  Win.Spawned (Win.start_spawn
                 (Win.init 80 24 (Win.CmdList ["a"; "b c"]%string))) /\
  Win.proc (Win.start_spawn (Win.init 80 24
                               (Win.CmdList ["a b"; "c"]%string))) =
  Win.proc (Win.start_spawn (Win.init 80 24
                               (Win.CmdList ["a"; "b c"]%string))) /\
  option_map Win.argv
             (Win.proc (Win.start_spawn
                          (Win.init 80 24
                                    (Win.CmdList ["a b"; "c"]%string)))) =
  Some (String.concat " " ["a b"; "c"]%string) /\
  Unix.main_child sample_env ["wrapper"; "80"; "24"; "a b"; "c"]%string =
  Unix.Execvp "a b" ["a b"; "c"]%string /\
  Unix.main_child sample_env ["wrapper"; "80"; "24"; "a"; "b c"]%string =
  Unix.Execvp "a" ["a"; "b c"]%string.
Proof.
  split; [discriminate|].
  apply (C10_windows_joins_unix_keeps sample_env 80 24
           "wrapper" "80" "24" "a b" "a" ["c"%string] ["b c"%string]);
    reflexivity.
Defined.

End Claims.

(* ===================================================================== *)
(** * Further properties of the Unix wrapper                              *)
(* ===================================================================== *)

Section UnixMore.
Import Py Unix UnixMain.

(** X1.  [handle_resize_escape] gives back every chunk as it came, returns
    normally and has no effect at all: the test of line 37 compares eight
    bytes with a literal of nine, so neither [set_size] nor [os.kill] nor
    the error report is ever reached. *)
Theorem X1_scanner_is_the_identity (E : Env) (data : bytes) (fd : Z)
        (w : World) :
  handle_resize_escape E data fd w = Ok data w.
Proof. apply handle_resize_escape_returns_input. Qed.

(** X3.  Whatever happens in the loop of the parent, it never leaves
    through an exception and never touches the terminal size.  Either all
    turns were taken and the loop goes on, the world and the master
    descriptor being as before; or the loop was left, and then the master
    side is closed and the log has gained one thing at most, the SIGTERM
    sent to the child at the very end. *)
Theorem X3_loop_ends_in_teardown_only (E : Env) (pid fd : Z)
        (turns : list turn) (s : Session) :
  (snd (loop E pid fd turns s) = Waiting /\
   world (fst (loop E pid fd turns s)) = world s /\
   fd_closed (fst (loop E pid fd turns s)) = fd_closed s) \/
  (snd (loop E pid fd turns s) = Returned /\
   fd_closed (fst (loop E pid fd turns s)) = true /\
   child_pid (world (fst (loop E pid fd turns s))) = child_pid (world s) /\
   log (world (fst (loop E pid fd turns s))) =
   log (world s) ++ (if kill_ok E pid then [Kill pid SIGTERM] else [])).
Proof. apply loop_outcome. Qed.

Lemma takes_all_firstn {A} (takes : option nat) (data : list A) :
  takes_all takes data = true ->
  exists n, takes = Some n /\ firstn n data = data.
Proof.
  unfold takes_all. destruct takes as [n|]; [|discriminate].
  intros H. apply Nat.leb_le in H. exists n. split; [reflexivity|].
  now apply firstn_all2.
Qed.

(** A steady turn adds what the child wrote to standard output and what
    was typed to the master side, and changes nothing else. *)
Lemma steady_turn (E : Env) (fd : Z) (t : turn) (s : Session) :
  steady t = true ->
  exists s',
    one_turn E fd t s = (s', Continue) /\
    concat (to_stdout s') = concat (to_stdout s) ++ child_wrote t /\
    concat (to_child s') = concat (to_child s) ++ typed t /\
    world s' = world s /\ fd_closed s' = fd_closed s.
Proof.
  destruct t as [| |m so i mo exited]; cbn [steady one_turn];
    [intros _|discriminate|].
  - exists s. cbn. rewrite !app_nil_r. tauto.
  - intros H. apply andb_true_iff in H. destruct H as [H Hi].
    apply andb_true_iff in H. destruct H as [Hex Hm].
    destruct exited; [discriminate|].
    assert (Hmaster : exists s1,
               on_master m so s = (s1, Continue) /\
               concat (to_stdout s1) =
               concat (to_stdout s) ++
               child_wrote (Ready m so i mo false) /\
               to_child s1 = to_child s /\
               world s1 = world s /\ fd_closed s1 = fd_closed s).
    { destruct m as [[[|x data]|]|]; try discriminate.
      - destruct (takes_all_firstn so (x :: data) Hm) as (n & -> & Hn).
        exists (write_stdout (firstn n (x :: data)) s).
        cbn [on_master child_wrote write_stdout to_stdout to_child world
             fd_closed].
        rewrite Hn, concat_app. cbn [concat]. rewrite app_nil_r. tauto.
      - exists s. cbn. rewrite app_nil_r. tauto. }
    destruct Hmaster as (s1 & -> & Hout & Hin & Hw & Hc).
    rewrite on_stdin_relays.
    destruct i as [[[[|x data]|]|]|];
      try (exists s1; cbn [typed]; rewrite app_nil_r, Hin;
           split; [reflexivity|tauto]).
    destruct (takes_all_firstn mo (x :: data) Hi) as (n & -> & Hn).
    exists (write_master (firstn n (x :: data)) s1).
    split; [reflexivity|].
    cbn [write_master to_stdout to_child world fd_closed typed].
    rewrite Hn, concat_app, Hin. cbn [concat]. rewrite app_nil_r. tauto.
Qed.

(** X5.  As long as no turn ends the session and both streams take the
    writes whole, the loop is a faithful relay: standard output has
    received exactly the bytes the child wrote, in order, and the child has
    received exactly the bytes typed, in order, resize directives
    included; the world is as it was. *)
Theorem X5_loop_relays_verbatim (E : Env) (pid fd : Z)
        (turns : list turn) (s : Session) :
  forallb steady turns = true ->
  exists s',
    loop E pid fd turns s = (s', Waiting) /\
    concat (to_stdout s') =
    concat (to_stdout s) ++ concat (map child_wrote turns) /\
    concat (to_child s') =
    concat (to_child s) ++ concat (map typed turns) /\
    world s' = world s /\ fd_closed s' = fd_closed s.
Proof.
  revert s. induction turns as [|t rest IH]; intros s H.
  - exists s. cbn. rewrite !app_nil_r. tauto.
  - cbn [forallb] in H. apply andb_true_iff in H. destruct H as [Ht Hrest].
    destruct (steady_turn E fd t s Ht) as (s1 & H1 & Ho & Hi & Hw & Hc).
    destruct (IH s1 Hrest) as (s' & H' & Ho' & Hi' & Hw' & Hc').
    exists s'. cbn [loop map concat]. rewrite H1.
    split; [exact H'|].
    rewrite Ho', Hi', Ho, Hi, <- !app_assoc, Hw', Hc'. tauto.
Qed.

Lemma X5_loop_relays_verbatim_witness :
  exists s',
    loop sample_env 4242 3
         [Ready (Some (MasterData (bytes_of "$ "))) (Some 2%nat)
                (Some (StdinData (Some (directive (bytes_of "80;24")))))
                (Some 15%nat) false;
          SelectError;
          Ready None None (Some (StdinData (Some (bytes_of "ls"))))
                (Some 2%nat) false]
         fresh_session = (s', Waiting) /\
    concat (to_stdout s') = bytes_of "$ " /\
    concat (to_child s') = directive (bytes_of "80;24") ++ bytes_of "ls" /\
    world s' = forked /\ fd_closed s' = false.
Proof.
  apply (X5_loop_relays_verbatim sample_env 4242 3
           [Ready (Some (MasterData (bytes_of "$ "))) (Some 2%nat)
                  (Some (StdinData (Some (directive (bytes_of "80;24")))))
                  (Some 15%nat) false;
            SelectError;
            Ready None None (Some (StdinData (Some (bytes_of "ls"))))
                  (Some 2%nat) false]
           fresh_session).
  reflexivity.
Defined.

Lemma terminal_size_app (fd : Z) (l1 l2 : list event)
      (size : option (Z * Z)) :
  terminal_size fd (l1 ++ l2) size =
  terminal_size fd l2 (terminal_size fd l1 size).
Proof.
  revert size. induction l1 as [|ev l1 IH]; intros size; cbn.
  - reflexivity.
  - destruct ev; apply IH.
Qed.

(** X6.  The terminal keeps its initial size for the whole session: when
    the size given to [main] fits and the system accepts it, then after any
    turns whatever, resize directives on standard input included, the size
    of the master side is still the initial [(cols, rows)]. *)
Theorem X6_session_keeps_initial_size (E : Env) (pid fd cols rows : Z)
        (turns : list turn) (s : Session) :
  fits_H cols = true -> fits_H rows = true -> ioctl_ok E fd = true ->
  terminal_size fd (log (world (fst (parent E pid fd cols rows turns s))))
                None = Some (cols, rows).
Proof.
  intros Hc Hr Hio. unfold parent, set_size, bind, or_raise, pack_HHHH.
  rewrite Hr, Hc. cbn [andb fits_H Z.leb Z.compare ret].
  unfold ioctl_TIOCSWINSZ. rewrite Hio.
  match goal with
  | |- context [loop E pid fd turns ?s0] =>
    destruct (loop_outcome E pid fd turns s0)
      as [(_ & Hw & _)|(_ & _ & _ & Hl)]
  end.
  - rewrite Hw. cbn [set_world world log emit].
    rewrite terminal_size_app. cbn. now rewrite Z.eqb_refl.
  - rewrite Hl. cbn [set_world world log emit].
    rewrite !terminal_size_app. cbn. rewrite Z.eqb_refl.
    destruct (kill_ok E pid); reflexivity.
Qed.

Lemma X6_session_keeps_initial_size_witness :
  terminal_size 3
    (log (world (fst (parent sample_env 4242 3 120 40
                        [Ready None None
                           (Some (StdinData
                                    (Some (directive (bytes_of "80;24")))))
                           (Some 15%nat) false;
                         Interrupt]
                        fresh_session))))
    None = Some (120, 40).
Proof.
  apply (X6_session_keeps_initial_size sample_env 4242 3 120 40);
    reflexivity.
Defined.

(** X7.  When the initial size does not fit an unsigned short (a number
    outside 0..65535), the two branches of [main] part ways.  The child
    swallows the error and executes the command with its terminal
    untouched.  The parent leaves [main] through [struct.error] before its
    first turn: nothing is relayed, the master side is not closed and no
    SIGTERM is sent to the child. *)
Theorem X7_unfit_initial_size_splits_the_branches (E : Env)
        (pid fd cols rows : Z) (file : string) (args : list string)
        (turns : list turn) (s : Session) (w : World) :
  fits_H cols && fits_H rows = false ->
  child E cols rows file args w = (w, Execvp file (file :: args)) /\
  parent E pid fd cols rows turns s =
  (set_world s {| child_pid := Some pid; log := log (world s) |},
   Uncaught struct_error).
Proof.
  intros Hfit. unfold child, parent, set_size, bind, or_raise, pack_HHHH.
  rewrite (andb_comm (fits_H rows)), Hfit. split; reflexivity.
Qed.

Lemma X7_unfit_initial_size_splits_the_branches_witness :
  child sample_env 70000 24 "opencode" [] forked =
  (forked, Execvp "opencode" ["opencode"%string]) /\
  parent sample_env 4242 3 70000 24
         [Ready (Some (MasterData (bytes_of "$ "))) (Some 2%nat) None None
                false]
         fresh_session =
  (set_world fresh_session
             {| child_pid := Some 4242; log := log (world fresh_session) |},
   Uncaught struct_error).
Proof.
  apply (X7_unfit_initial_size_splits_the_branches sample_env 4242 3
           70000 24 "opencode" [] _ fresh_session forked).
  reflexivity.
Defined.

End UnixMore.

(* ===================================================================== *)
(** * Further properties of the Windows wrapper                           *)
(* ===================================================================== *)

Section WinMore.
Import Py Win.

(** X8.  On every complete directive, whatever its parameters,
    [handle_resize] of a started backend ends in the error report and
    changes nothing else: the slice [data[8:-1]] keeps the [;] that ends
    the literal, so the first of the fields is empty and [int] refuses
    it, or there are too many fields. *)
Theorem X8_handle_resize_always_reports (E : Env) (body : str)
        (self : WindowsPTY) (p : PtyProcess) :
  proc self = Some p ->
  handle_resize E (directive_str body) self = stderr_write ValueError self.
Proof.
  intros Hp. unfold directive_str.
  destruct (handle_resize_directive E body self) as (e & -> & He).
  rewrite He; [reflexivity|]. now rewrite Hp.
Qed.

Lemma X8_handle_resize_always_reports_witness :
  handle_resize sample_env (directive_str (str_of "132;43")) spawned_80x24 =
  stderr_write ValueError spawned_80x24.
Proof.
  apply (X8_handle_resize_always_reports sample_env (str_of "132;43")
           spawned_80x24
           (spawn "opencode" (24, 80))).
  reflexivity.
Defined.

(** X9.  Whatever is typed, [start] leaves the PTY at the size it was
    spawned with, which is the size given at construction. *)
Theorem X9_start_keeps_the_spawn_size (E : Env) (self : WindowsPTY)
        (stdin : str) :
  pty_size (start E self stdin) = Some (rows self, cols self) /\
  recorded (start E self stdin) = recorded self.
Proof.
  unfold start. split.
  - rewrite handle_input_keeps_pty_size. reflexivity.
  - unfold handle_input.
    rewrite at_eof_keeps_recorded, feed_keeps_recorded. reflexivity.
Qed.

(** Text without ESC goes to the child character by character, from the
    head of the outer loop back to it. *)
Lemma feed_escape_free (E : Env) (l : str) :
  forall self,
    loop_condition self = true ->
    existsb (N.eqb ESC) l = false ->
    exists self',
      feed E (Outer, self) l = (Outer, self') /\
      forwards_exactly self self' l /\
      loop_condition self' = true.
Proof.
  induction l as [|c t IH]; intros self Hloop Hfree.
  - exists self. split; [reflexivity|].
    split; [apply forwards_refl|exact Hloop].
  - cbn [existsb] in Hfree. apply orb_false_iff in Hfree.
    destruct Hfree as [Hc Ht].
    destruct (proc_write_forwards self [c] Hloop) as [Hw Hloop'].
    destruct (IH _ Hloop' Ht) as (self' & Hfeed & Hfw & Hl).
    exists self'. unfold feed in *. cbn [fold_left step].
    rewrite Hloop. unfold outer_turn. rewrite N.eqb_sym, Hc.
    split; [exact Hfeed|]. split; [|exact Hl].
    change (c :: t) with ([c] ++ t). eapply forwards_trans; eassumption.
Qed.

Lemma escape_free_no_literal (l : str) :
  existsb (N.eqb ESC) l = false -> contains N.eqb RESIZE l = false.
Proof.
  induction l as [|c t IH]; intros H.
  - reflexivity.
  - cbn [existsb] in H. apply orb_false_iff in H. destruct H as [Hc Ht].
    cbn [contains]. rewrite (IH Ht), orb_false_r.
    rewrite RESIZE_chars. cbn [length firstn list_eqb].
    change 27%N with ESC. now rewrite N.eqb_sym, Hc.
Qed.

(** X10.  A complete directive typed between text without ESC before it
    and text without the literal after it is taken out of the stream: the
    child receives the text before and the text after, in order, and
    nothing of the directive; one error is reported and no size
    changes. *)
Theorem X10_directive_is_cut_out (E : Env) (self : WindowsPTY)
        (before body after : str) :
  loop_condition self = true ->
  existsb (N.eqb ESC) before = false ->
  existsb (N.eqb BEL) body = false ->
  contains N.eqb RESIZE after = false ->
  let self' := handle_input E self
                            (before ++ directive_str body ++ after) in
  payload self' = payload self ++ before ++ after /\
  stderr self' = stderr self ++ [ValueError] /\
  pty_size self' = pty_size self /\
  recorded self' = recorded self.
Proof.
  intros Hloop Hbefore Hbody Hafter. cbv zeta.
  destruct (feed_escape_free E before self Hloop Hbefore)
    as (s1 & Hf1 & Hfw1 & Hl1).
  assert (Hrun : handle_input E self (before ++ directive_str body ++ after)
                 = at_eof (feed E (Outer, stderr_write ValueError s1) after)).
  { unfold handle_input. rewrite feed_app, Hf1, feed_app.
    now rewrite (feed_directive E s1 body Hl1 Hbody). }
  pose proof (feed_plain E after Outer [] (stderr_write ValueError s1)
                         Hl1 (or_introl (conj eq_refl eq_refl)) Hafter)
    as Hfw2.
  cbn [app] in Hfw2. rewrite <- Hrun in Hfw2.
  destruct Hfw1 as (P1 & S1 & C1 & R1 & D1).
  destruct Hfw2 as (P2 & S2 & C2 & R2 & D2).
  split; [|split; [|split]].
  - rewrite P2. unfold payload in *. cbn [stderr_write proc].
    rewrite P1, app_assoc. reflexivity.
  - rewrite S2. cbn [stderr_write stderr]. now rewrite S1.
  - unfold pty_size. rewrite D2. cbn [stderr_write proc]. exact D1.
  - unfold recorded. rewrite C2, R2. cbn [stderr_write cols rows].
    now rewrite C1, R1.
Qed.

Lemma X10_directive_is_cut_out_witness :
  let self' := handle_input sample_env spawned_80x24
                 (str_of "ls" ++ directive_str (str_of "132;43") ++
                  str_of " -la") in
  payload self' = payload spawned_80x24 ++ str_of "ls" ++ str_of " -la" /\
  stderr self' = stderr spawned_80x24 ++ [ValueError] /\
  pty_size self' = pty_size spawned_80x24 /\
  recorded self' = recorded spawned_80x24.
Proof.
  apply (X10_directive_is_cut_out sample_env spawned_80x24
           (str_of "ls") (str_of "132;43") (str_of " -la")); reflexivity.
Defined.

(** X11.  A directive typed right after a lone ESC is not recognised:
    the two ESC are written to the child together as a sequence that is
    not a resize, and the rest of the directive follows as plain text.
    The child receives the whole input, nothing is reported and no size
    changes. *)
Theorem X11_directive_after_escape_is_forwarded (E : Env)
        (self : WindowsPTY) (body : str) :
  loop_condition self = true ->
  existsb (N.eqb ESC) body = false ->
  forwards_exactly self
    (handle_input E self (ESC :: directive_str body))
    (ESC :: directive_str body).
Proof.
  intros Hloop Hbody.
  destruct (proc_write_forwards self [ESC; ESC] Hloop) as [Hw Hloop'].
  set (rest := str_of "]RESIZE;" ++ body ++ [BEL]).
  assert (Hrest : contains N.eqb RESIZE rest = false).
  { apply escape_free_no_literal. unfold rest.
    rewrite !existsb_app, Hbody. reflexivity. }
  assert (Hrun : handle_input E self (ESC :: directive_str body) =
                 at_eof (feed E (Outer, proc_write [ESC; ESC] self) rest)).
  { unfold handle_input, feed, directive_str. rewrite RESIZE_chars.
    cbn [app fold_left step]. rewrite Hloop. reflexivity. }
  rewrite Hrun.
  change (ESC :: directive_str body) with ([ESC; ESC] ++ rest).
  eapply forwards_trans; [exact Hw|].
  apply (feed_plain E rest Outer [] _ Hloop'); [tauto|exact Hrest].
Qed.

Lemma X11_directive_after_escape_is_forwarded_witness :
  forwards_exactly spawned_80x24
    (handle_input sample_env spawned_80x24
                  (ESC :: directive_str (str_of "132;43")))
    (ESC :: directive_str (str_of "132;43")).
Proof.
  apply (X11_directive_after_escape_is_forwarded sample_env spawned_80x24
           (str_of "132;43")); reflexivity.
Defined.

Lemma feed_finished (E : Env) (stdin : str) (self : WindowsPTY) :
  feed E (Finished, self) stdin = (Finished, self).
Proof.
  unfold feed. induction stdin as [|c t IH]; [reflexivity|exact IH].
Qed.

Lemma handle_input_stopped (E : Env) (self : WindowsPTY) (stdin : str) :
  loop_condition self = false ->
  handle_input E self stdin = finish self.
Proof.
  intros Hloop. unfold handle_input. destruct stdin as [|c t].
  - reflexivity.
  - unfold feed. cbn [fold_left step]. rewrite Hloop.
    fold (feed E (Finished, finish self) t). now rewrite feed_finished.
Qed.

(** X12.  With the child dead, or [running] cleared, [handle_input]
    forwards nothing of what is typed: it comes back with the object as it
    was, [running] cleared. *)
Theorem X12_dead_child_input_is_dropped (E : Env) (self : WindowsPTY)
        (stdin : str) :
  loop_condition self = false ->
  handle_input E self stdin = finish self.
Proof. apply handle_input_stopped. Qed.

Lemma X12_dead_child_input_is_dropped_witness :
  handle_input sample_env (finish spawned_80x24) (str_of "ls") =
  finish (finish spawned_80x24).
Proof.
  apply (X12_dead_child_input_is_dropped sample_env (finish spawned_80x24)
           (str_of "ls")).
  reflexivity.
Defined.

(** The buffers the inner loop holds are those of [sane]. *)
Lemma feed_sane (E : Env) (stdin : str) :
  forall s, sane (fst s) -> sane (fst (feed E s stdin)).
Proof.
  unfold feed. induction stdin as [|c t IH]; intros s Hs; cbn [fold_left].
  - exact Hs.
  - apply IH. now apply step_sane.
Qed.

(** X13.  At any moment, after any input, the pending buffer either starts
    with the whole literal or holds at most eight characters: only a
    buffer that begins with [ESC ] RESIZE ;] can grow beyond that. *)
Theorem X13_pending_buffer_short_before_literal (E : Env)
        (self : WindowsPTY) (stdin : str) :
  startswith (pending (feed E (Outer, self) stdin)) RESIZE = true \/
  len (pending (feed E (Outer, self) stdin)) <= 8.
Proof.
  pose proof (feed_sane E stdin (Outer, self) I) as Hs.
  unfold pending.
  destruct (fst (feed E (Outer, self) stdin)) as [|buf|];
    cbn [sane] in Hs.
  - right. cbn. lia.
  - destruct Hs as [(k & Hk & ->)|(body & ->)].
    + right. unfold len. rewrite length_firstn. lia.
    + left. rewrite RESIZE_chars. reflexivity.
  - right. cbn. lia.
Qed.

End WinMore.

(* ===================================================================== *)
(** * Properties of the Windows output side                               *)
(* ===================================================================== *)

Section WinOutputFacts.
Import Py Win WinOutput.

Lemma re_sub_empty_cons (p : N -> bool) (ps : list (N -> bool)) (c : N)
      (t : str) :
  re_sub_empty p ps (c :: t) =
  if matches (p :: ps) (c :: t)
  then re_sub_empty p ps (skipn (length ps) t)
  else c :: re_sub_empty p ps t.
Proof.
  simp re_sub_empty. destruct (matches (p :: ps) (c :: t)); reflexivity.
Qed.

(** A pattern that starts with ESC leaves text without ESC alone, also in
    front of other text. *)
Lemma re_sub_escape_free_prefix (ps : list (N -> bool)) (a l : str) :
  existsb (N.eqb ESC) a = false ->
  re_sub_empty (just ESC) ps (a ++ l) = a ++ re_sub_empty (just ESC) ps l.
Proof.
  induction a as [|c t IH]; intros H; [reflexivity|].
  cbn [existsb] in H. apply orb_false_iff in H. destruct H as [Hc Ht].
  cbn [app]. rewrite re_sub_empty_cons. cbn [matches]. unfold just at 1.
  rewrite N.eqb_sym, Hc. cbn [andb]. now rewrite (IH Ht).
Qed.

Lemma re_sub_escape_free (ps : list (N -> bool)) (a : str) :
  existsb (N.eqb ESC) a = false ->
  re_sub_empty (just ESC) ps a = a.
Proof.
  intros H. rewrite <- (app_nil_r a) at 1.
  rewrite re_sub_escape_free_prefix by exact H.
  simp re_sub_empty. apply app_nil_r.
Qed.

Lemma filter_plain (data : str) :
  existsb (N.eqb ESC) data = false ->
  filter_focus_events data = data.
Proof.
  intros H. unfold filter_focus_events.
  rewrite (re_sub_escape_free focus_mode data H).
  rewrite (re_sub_escape_free _ data H).
  apply (re_sub_escape_free _ data H).
Qed.

(** X14.  [filter_focus_events] leaves text without ESC as it is: every
    pattern begins with ESC. *)
Theorem X14_filter_keeps_plain_text (data : str) :
  existsb (N.eqb ESC) data = false ->
  filter_focus_events data = data.
Proof. apply filter_plain. Qed.

Lemma X14_filter_keeps_plain_text_witness :
  filter_focus_events (str_of "[I and [O") = str_of "[I and [O".
Proof.
  apply (X14_filter_keeps_plain_text (str_of "[I and [O")). reflexivity.
Defined.

(** One pass over a focus sequence followed by anything. *)
Ltac pass_over :=
  cbn -[re_sub_empty];
  repeat (rewrite re_sub_empty_cons; cbn -[re_sub_empty]).

(** X15.  A focus sequence that stands behind text without ESC is taken
    out, whatever follows it; the text in front is kept, and the filter
    goes on with what follows. *)
Theorem X15_filter_drops_focus_sequence (a seq rest : str) :
  existsb (N.eqb ESC) a = false ->
  is_focus_sequence seq = true ->
  filter_focus_events (a ++ seq ++ rest) = a ++ filter_focus_events rest.
Proof.
  intros Ha Hseq. unfold is_focus_sequence in Hseq.
  apply existsb_exists in Hseq. destruct Hseq as (s & Hin & Heq).
  apply str_eqb_eq in Heq. subst s.
  unfold filter_focus_events.
  cbn [focus_sequences In] in Hin.
  destruct Hin as [<-|[<-|[<-|[<-|[]]]]];
    rewrite (re_sub_escape_free_prefix focus_mode a) by exact Ha;
    pass_over;
    rewrite (re_sub_escape_free_prefix [just 91%N; just 73%N] a)
      by exact Ha;
    pass_over;
    rewrite (re_sub_escape_free_prefix [just 91%N; just 79%N] a)
      by exact Ha;
    pass_over;
    reflexivity.
Qed.

Lemma X15_filter_drops_focus_sequence_witness :
  filter_focus_events
    (str_of "ab" ++ (ESC :: str_of "[?1004h") ++ str_of "cd") =
  str_of "ab" ++ filter_focus_events (str_of "cd").
Proof.
  apply (X15_filter_drops_focus_sequence (str_of "ab")
           (ESC :: str_of "[?1004h") (str_of "cd")); reflexivity.
Defined.

Lemma re_sub_empty_nil (p : N -> bool) (ps : list (N -> bool)) :
  re_sub_empty p ps [] = [].
Proof. now simp re_sub_empty. Qed.

(** Each of the two pieces of a focus sequence cut in two passes the
    filter as it is. *)
Ltac pieces H a :=
  destruct a as [|? a]; cbn [app] in H;
  [ first [ discriminate H
          | injection H as H1 H2; subst;
            unfold filter_focus_events; split;
            repeat (pass_over; rewrite ?re_sub_empty_nil); reflexivity ]
  | first [ discriminate H
          | injection H as H1 H; subst; pieces H a ] ].

Lemma focus_pieces_pass (x y : N) (a b : str) :
  is_focus_sequence ((x :: a) ++ y :: b) = true ->
  filter_focus_events (x :: a) = x :: a /\
  filter_focus_events (y :: b) = y :: b.
Proof.
  intros Hseq. unfold is_focus_sequence in Hseq.
  apply existsb_exists in Hseq. destruct Hseq as (s & Hin & Heq).
  apply str_eqb_eq in Heq. subst s.
  cbn [focus_sequences In] in Hin.
  destruct Hin as [H|[H|[H|[H|[]]]]];
    cbn in H; injection H as H1 H; subst; pieces H a.
Qed.

(** X16.  A focus sequence that arrives cut in two, one piece in each of
    two reads, is not filtered: both pieces are written to standard output
    as they are, so the whole sequence reaches it. *)
Theorem X16_split_focus_sequence_reaches_stdout (self : WindowsPTY)
        (out : list str) (x y : N) (a b : str) :
  loop_condition self = true ->
  is_focus_sequence ((x :: a) ++ y :: b) = true ->
  read_output [ReadData (x :: a) true; ReadData (y :: b) true] self out =
  (self, out ++ [x :: a; y :: b]).
Proof.
  intros Hloop Hseq. destruct (focus_pieces_pass x y a b Hseq) as [Ha Hb].
  cbn [read_output]. rewrite Hloop, Ha, Hb, <- app_assoc. reflexivity.
Qed.

Lemma X16_split_focus_sequence_reaches_stdout_witness :
  read_output [ReadData (ESC :: str_of "[?10") true;
               ReadData (str_of "04h") true] spawned_80x24 [] =
  (spawned_80x24, [ESC :: str_of "[?10"; str_of "04h"]).
Proof.
  apply (X16_split_focus_sequence_reaches_stdout spawned_80x24 []
           ESC 48%N (str_of "[?10") (str_of "4h")); reflexivity.
Defined.

Lemma read_output_eof (reads more : list proc_read) (self : WindowsPTY) :
  forall out,
    fst (read_output (reads ++ ReadEOF :: more) self out) = finish self.
Proof.
  induction reads as [|r rest IH]; intros out; cbn [app read_output].
  - destruct (loop_condition self); reflexivity.
  - destruct (loop_condition self); [|reflexivity].
    destruct r as [[|c t] ok| |]; try apply IH; [|reflexivity].
    destruct (filter_focus_events (c :: t)); apply IH.
Qed.

(** X17.  The two loops stop each other through [self.running]: once the
    reader has met the end of the child's output, [handle_input] started
    on the object it leaves reads nothing and writes nothing to the child,
    whatever is typed. *)
Theorem X17_reader_end_stops_input (E : Env) (self : WindowsPTY)
        (reads more : list proc_read) (out : list str) (stdin : str) :
  handle_input E (fst (read_output (reads ++ ReadEOF :: more) self out))
               stdin = finish self.
Proof.
  rewrite read_output_eof.
  rewrite handle_input_stopped.
  - now destruct self.
  - unfold loop_condition, finish. reflexivity.
Qed.

(** X18.  As long as the child lives and every read brings text without
    ESC that standard output takes, or fails and is tried again,
    [read_output] is a faithful relay: standard output receives the text
    read, in order, and the object is left as it was. *)
Theorem X18_read_output_relays_plain_text (self : WindowsPTY)
        (reads : list proc_read) (out : list str) :
  loop_condition self = true ->
  forallb plain_read reads = true ->
  fst (read_output reads self out) = self /\
  concat (snd (read_output reads self out)) =
  concat out ++ concat (map read_text reads).
Proof.
  intros Hloop. revert out.
  induction reads as [|r rest IH]; intros out Hplain;
    cbn [read_output]; rewrite Hloop.
  - cbn. now rewrite app_nil_r.
  - cbn [forallb] in Hplain. apply andb_true_iff in Hplain.
    destruct Hplain as [Hr Hrest].
    destruct r as [[|c t] ok| |]; cbn [plain_read] in Hr;
      try discriminate; cbn [map read_text concat app].
    + apply (IH out Hrest).
    + apply andb_true_iff in Hr. destruct Hr as [-> Hfree].
      apply negb_true_iff in Hfree.
      rewrite (filter_plain (c :: t) Hfree).
      destruct (IH (out ++ [c :: t]) Hrest) as [H1 H2].
      split; [exact H1|].
      rewrite H2, concat_app. cbn [concat].
      now rewrite app_nil_r, <- app_assoc.
    + apply (IH out Hrest).
Qed.

Lemma X18_read_output_relays_plain_text_witness :
  fst (read_output [ReadData (str_of "$ ") true; ReadFailure;
                    ReadData (str_of "ok") true] spawned_80x24 []) =
  spawned_80x24 /\
  concat (snd (read_output [ReadData (str_of "$ ") true; ReadFailure;
                            ReadData (str_of "ok") true]
                           spawned_80x24 [])) =
  concat [] ++
  concat (map read_text [ReadData (str_of "$ ") true; ReadFailure;
                         ReadData (str_of "ok") true]).
Proof.
  apply (X18_read_output_relays_plain_text spawned_80x24
           [ReadData (str_of "$ ") true; ReadFailure;
            ReadData (str_of "ok") true] []); reflexivity.
Defined.

(** One substitution only deletes. *)
Lemma re_sub_empty_deletes (p : N -> bool) (ps : list (N -> bool)) :
  forall (n : nat) (data : str),
    (length data <= n)%nat ->
    (length (re_sub_empty p ps data) <= length data)%nat /\
    (length (re_sub_empty p ps data) = length data ->
     re_sub_empty p ps data = data).
Proof.
  induction n as [|n IH]; intros data Hn.
  - destruct data; [|cbn in Hn; lia].
    rewrite re_sub_empty_nil. split; [lia|reflexivity].
  - destruct data as [|c t]; [rewrite re_sub_empty_nil; split; [lia|easy]|].
    cbn [length] in Hn. rewrite re_sub_empty_cons.
    destruct (matches (p :: ps) (c :: t)).
    + assert (Hs : (length (skipn (length ps) t) <= n)%nat).
      { rewrite length_skipn. lia. }
      destruct (IH _ Hs) as [Hle _].
      rewrite length_skipn in Hle. cbn [length]. split; [lia|lia].
    + assert (Ht : (length t <= n)%nat) by lia.
      destruct (IH _ Ht) as [Hle Heq]. cbn [length]. split; [lia|].
      intros H. f_equal. apply Heq. lia.
Qed.

(** X19.  [filter_focus_events] only deletes: its result is never longer
    than the data, and when it has the length of the data it is the
    data. *)
Theorem X19_filter_only_deletes (data : str) :
  len (filter_focus_events data) <= len data /\
  (len (filter_focus_events data) = len data ->
   filter_focus_events data = data).
Proof.
  unfold filter_focus_events, len.
  set (d1 := re_sub_empty (just ESC) focus_mode data).
  set (d2 := re_sub_empty (just ESC) [just 91%N; just 73%N] d1).
  destruct (re_sub_empty_deletes (just ESC) focus_mode _ data (le_n _))
    as [L1 E1].
  destruct (re_sub_empty_deletes (just ESC) [just 91%N; just 73%N] _ d1
                                 (le_n _)) as [L2 E2].
  destruct (re_sub_empty_deletes (just ESC) [just 91%N; just 79%N] _ d2
                                 (le_n _)) as [L3 E3].
  fold d1 in L1, E1. fold d2 in L2, E2.
  split; [lia|]. intros H.
  rewrite E3 by lia. rewrite E2 by lia. apply E1. lia.
Qed.

(** X20.  The result of the filter is not always free of focus sequences:
    every pass goes over the data once, so a focus-in sequence written
    inside another one, [ESC [ ESC [ I I], loses its inner part and comes
    out as [ESC [ I], in any surrounding text. *)
Theorem X20_nested_focus_sequence_survives (a rest : str) :
  existsb (N.eqb ESC) a = false ->
  filter_focus_events
    (a ++ (ESC :: str_of "[" ++ ESC :: str_of "[II") ++ rest) =
  a ++ (ESC :: str_of "[I") ++ filter_focus_events rest.
Proof.
  intros Ha. unfold filter_focus_events.
  rewrite (re_sub_escape_free_prefix focus_mode a) by exact Ha.
  pass_over.
  rewrite (re_sub_escape_free_prefix [just 91%N; just 73%N] a)
    by exact Ha.
  pass_over.
  rewrite (re_sub_escape_free_prefix [just 91%N; just 79%N] a)
    by exact Ha.
  pass_over.
  reflexivity.
Qed.

Lemma X20_nested_focus_sequence_survives_witness :
  filter_focus_events
    (str_of "ab" ++ (ESC :: str_of "[" ++ ESC :: str_of "[II") ++
     str_of "cd") =
  str_of "ab" ++ (ESC :: str_of "[I") ++ filter_focus_events (str_of "cd").
Proof.
  apply (X20_nested_focus_sequence_survives (str_of "ab") (str_of "cd")).
  reflexivity.
Defined.

End WinOutputFacts.

(* ===================================================================== *)
(** * The two [main] functions side by side                               *)
(* ===================================================================== *)

Section BothMains.
Import Py.

(** X21.  The two wrappers read the command line alike.  Both print the
    usage line on fewer than three arguments; both end in the same
    uncaught [ValueError] when [<cols>] or [<rows>] is not an integer for
    [int]; and otherwise both start the same command, [sys.argv[3:]],
    with the same numbers, the Windows backend spawning its PTY at
    [(rows, cols)]. *)
Theorem X21_both_mains_read_the_command_line_alike (E : Env)
        (sys_argv : list string) :
  match Unix.main_child E sys_argv, Win.main_spawn E sys_argv with
  | Unix.Usage, Win.Usage => len sys_argv < 4
  | Unix.Crash, Win.Crash =>
    4 <= len sys_argv /\
    (int E (str_of (nth 1 sys_argv EmptyString)) = None \/
     int E (str_of (nth 2 sys_argv EmptyString)) = None)
  | Unix.Execvp _ args, Win.Spawned self =>
    4 <= len sys_argv /\
    args = skipn 3 sys_argv /\
    Win.cmd self = Win.CmdList args /\
    int E (str_of (nth 1 sys_argv EmptyString)) = Some (Win.cols self) /\
    int E (str_of (nth 2 sys_argv EmptyString)) = Some (Win.rows self) /\
    pty_size self = Some (Win.rows self, Win.cols self)
  | _, _ => False
  end.
Proof.
  unfold Unix.main_child, Win.main_spawn.
  destruct (len sys_argv <? 4) eqn:Hlen.
  - now apply Z.ltb_lt in Hlen.
  - apply Z.ltb_ge in Hlen.
    destruct (int E (str_of (nth 1 sys_argv EmptyString))) as [c|];
      destruct (int E (str_of (nth 2 sys_argv EmptyString))) as [r|];
      cbn; tauto.
Qed.

End BothMains.
